(** * piring-sehat backend: request authentication and the data-access services

    A shallow embedding of [src/middleware/auth.js] and of the services of
    [src/services/] (food logs and users), followed by the properties of the
    specification, stated and proved over it.

    - [Js]: the JavaScript values the services handle and their coercions
      ([ToBoolean], [||], [== null], [Number]). Numbers are IEEE-754 binary64
      values, embedded as Rocq's primitive [float]: the same format with the
      same round-to-nearest-even operations.
    - [M]: an [async] function as a computation that returns or throws over
      the state of its surroundings, with [try]/[catch].
    - [Auth]: the middleware [requireAuth].
    - [Store]: the tables behind the Supabase client and the client's
      replies, with the ways a call can fail.
    - [FoodLogs], [Users]: the service functions. *)

From Stdlib Require Import ZArith List String Ascii Bool Lia.
From Stdlib Require Import Sorting.Sorted Sorting.Permutation.
From Stdlib Require Import Floats.
Import ListNotations.

Set Warnings "-inexact-float".

Local Open Scope string_scope.
Local Open Scope Z_scope.

(** ** JavaScript values and coercions *)

Module Js.

(** The scalar values a JSON column or a service argument can hold. *)
Inductive value : Type :=
| Undefined
| Null
| Bool (b : bool)
| Num (n : float)
| Str (s : string).

(** ToBoolean: [undefined], [null], [false], [0], [-0], [NaN] and [''] are
    falsy, everything else is truthy. *)
Definition truthy (v : value) : bool :=
  match v with
  | Undefined | Null => false
  | Bool b => b
  | Num n => negb (is_zero n || is_nan n)
  | Str s => negb (s =? "")%string
  end.

(** [a || b] *)
Definition logical_or (a b : value) : value := if truthy a then a else b.

(** [v == null]: true for [null] and [undefined] only. *)
Definition nullish (v : value) : bool :=
  match v with
  | Undefined | Null => true
  | _ => false
  end.

(** *** StringToNumber (ECMA-262, 7.1.4.1.1) *)

Definition code (c : ascii) : Z := Z.of_nat (nat_of_ascii c).

(** StrWhiteSpaceChar among the code units below 256: TAB, LF, VT, FF, CR,
    SP and NBSP. *)
Definition is_space (c : ascii) : bool :=
  let n := code c in
  ((9 <=? n) && (n <=? 13)) || (n =? 32) || (n =? 160).

Fixpoint trim_left (cs : list ascii) : list ascii :=
  match cs with
  | c :: r => if is_space c then trim_left r else cs
  | [] => []
  end.

Definition trim (cs : list ascii) : list ascii :=
  rev (trim_left (rev (trim_left cs))).

(** The value of [c] as a digit in base [base] (2, 8, 10 or 16). *)
Definition digit (base : Z) (c : ascii) : option Z :=
  let n := code c in
  let d :=
    if (48 <=? n) && (n <=? 57) then n - 48
    else if (97 <=? n) && (n <=? 102) then n - 87
    else if (65 <=? n) && (n <=? 70) then n - 55
    else base in
  if d <? base then Some d else None.

(** Reads the longest run of digits: the accumulated value, how many digits
    were read, and the rest of the input. *)
Fixpoint digits (base acc : Z) (count : Z) (cs : list ascii) : Z * Z * list ascii :=
  match cs with
  | c :: r =>
      match digit base c with
      | Some d => digits base (base * acc + d) (count + 1) r
      | None => (acc, count, cs)
      end
  | [] => (acc, count, [])
  end.

(** The binary64 value nearest to the integer [m] (ties to even). *)
Definition of_Z (m : Z) : float :=
  SF2Prim (binary_normalize prec emax m 0 false).

(** The binary64 value nearest to [m * 10 ^ e] for [0 <= m] (ties to even).
    For a negative exponent the quotient is computed with more than 60
    significant bits and a sticky bit, which rounds as the exact value. *)
Definition of_decimal (m e : Z) : float :=
  if m =? 0 then zero
  else if 0 <=? e then of_Z (m * 10 ^ e)
  else
    let d := 10 ^ (- e) in
    let s := Z.max 0 (Z.log2 d + 64 - Z.log2 m) in
    let (q, r) := Z.div_eucl (m * 2 ^ s) d in
    SF2Prim (binary_normalize prec emax
               (2 * q + (if r =? 0 then 0 else 1)) (- (s + 1)) false).

(** ExponentPart: [e] or [E], an optional sign, at least one digit. *)
Definition exponent_part (cs : list ascii) : option (Z * list ascii) :=
  match cs with
  | c :: r =>
      if (code c =? 101) || (code c =? 69) then
        let '(neg, r1) :=
          match r with
          | s :: r' =>
              if code s =? 45 then (true, r')
              else if code s =? 43 then (false, r') else (false, r)
          | [] => (false, r)
          end in
        let '(x, n, r2) := digits 10 0 0 r1 in
        if n =? 0 then None else Some (if neg then - x else x, r2)
      else Some (0, cs)
  | [] => Some (0, [])
  end.

(** StrUnsignedDecimalLiteral: [Infinity], or digits with an optional
    fraction and exponent; anything left over makes the string non-numeric. *)
Definition unsigned_decimal (cs : list ascii) : float :=
  if (string_of_list_ascii cs =? "Infinity")%string then infinity
  else
    let '(ip, ni, r1) := digits 10 0 0 cs in
    let '(m, nf, r2) :=
      match r1 with
      | c :: r => if code c =? 46 then digits 10 ip 0 r else (ip, 0, r1)
      | [] => (ip, 0, r1)
      end in
    if ni + nf =? 0 then nan
    else
      match exponent_part r2 with
      | Some (x, []) => of_decimal m (x - nf)
      | _ => nan
      end.

(** NonDecimalIntegerLiteral: [0x], [0o] or [0b] and at least one digit. *)
Definition non_decimal (cs : list ascii) : option float :=
  match cs with
  | z :: p :: r =>
      if code z =? 48 then
        let lower := Z.lor (code p) 32 in
        let base :=
          if lower =? 120 then 16
          else if lower =? 111 then 8
          else if lower =? 98 then 2 else 0 in
        if base =? 0 then None
        else
          match digits base 0 0 r with
          | (m, n, []) => Some (if n =? 0 then nan else of_Z m)
          | _ => Some nan
          end
      else None
  | _ => None
  end.

Definition StringToNumber (s : string) : float :=
  match trim (list_ascii_of_string s) with
  | [] => zero
  | (c :: r) as cs =>
      match non_decimal cs with
      | Some f => f
      | None =>
          if code c =? 45 then (- unsigned_decimal r)%float
          else if code c =? 43 then unsigned_decimal r
          else unsigned_decimal cs
      end
  end.

(** [Number(v)] *)
Definition Number (v : value) : float :=
  match v with
  | Undefined => nan
  | Null => zero
  | Bool b => if b then one else zero
  | Num n => n
  | Str s => StringToNumber s
  end.

End Js.

(** ** Effects: exceptions, external calls and the console

    An [async] function is a computation over the state of the world around
    it: it returns a value or throws, and leaves a trace of the external calls
    it made ([await] of a rejected promise throws at the call). *)

Inductive js_error : Type :=
| JsError (message : string)      (* [new Error(message)] *)
| RemoteError (message : string). (* an error object of an external service *)

Inductive outcome (A : Type) : Type :=
| Returns (a : A)
| Throws (e : js_error).
Arguments Returns {A} a.
Arguments Throws {A} e.

Definition M (S A : Type) : Type := S -> outcome A * S.

Definition ret {S A} (a : A) : M S A := fun s => (Returns a, s).

Definition throw {S A} (e : js_error) : M S A := fun s => (Throws e, s).

Definition bind {S A B} (c : M S A) (k : A -> M S B) : M S B :=
  fun s =>
    match c s with
    | (Returns a, s') => k a s'
    | (Throws e, s') => (Throws e, s')
    end.

(** [try { c } catch (err) { handler err }] *)
Definition try_catch {S A} (c : M S A) (handler : js_error -> M S A) : M S A :=
  fun s =>
    match c s with
    | (Returns a, s') => (Returns a, s')
    | (Throws e, s') => handler e s'
    end.

Declare Scope js_scope.
Delimit Scope js_scope with js.
Notation "x <- c ;; k" := (bind c (fun x => k))
  (at level 61, c at next level, right associativity) : js_scope.
Notation "c ;; k" := (bind c (fun _ => k))
  (at level 61, right associativity) : js_scope.
Local Open Scope js_scope.

(** ** The authentication middleware ([src/middleware/auth.js]) *)

Module Auth.

Section Middleware.

(** The decoded payload of an ID token; the middleware only passes it on. *)
Variable identity : Type.

(** What the middleware does to its surroundings, in order. *)
Inductive event : Type :=
| VerifyIdToken (token : string)           (* [adminAuth.verifyIdToken(token)] *)
| Respond (status : Z) (message : string)  (* [res.status(s).json({ error: m })] *)
| Next                                     (* [next()] *)
| ConsoleError (label : string).           (* [console.error(label, ...)] *)

(** The request being handled: its [Authorization] header, the identity
    attached to it, and what has happened so far. *)
Record request : Type := {
  authorization : option string;
  firebaseUser : option identity;
  trace : list event
}.

(** [firebaseAdmin.js] and the next handler are not part of the middleware:
    the verification result of each token and whether [next()] throws are
    given from outside. *)
Record environment : Type := {
  verifyIdToken : string -> outcome identity;
  next_throws : option js_error
}.

Variable env : environment.

Definition emit (e : event) : M request unit :=
  fun r => (Returns tt,
            {| authorization := authorization r;
               firebaseUser := firebaseUser r;
               trace := trace r ++ [e] |}).

Definition set_firebaseUser (d : identity) : M request unit :=
  fun r => (Returns tt,
            {| authorization := authorization r;
               firebaseUser := Some d;
               trace := trace r |}).

Definition await_verifyIdToken (token : string) : M request identity :=
  emit (VerifyIdToken token) ;;
  match verifyIdToken env token with
  | Returns d => ret d
  | Throws e => throw e
  end.

Definition call_next : M request unit :=
  emit Next ;;
  match next_throws env with
  | Some e => throw e
  | None => ret tt
  end.

(** [s.slice(n)] for [0 <= n]. *)
Fixpoint slice (n : nat) (s : string) : string :=
  match n, s with
  | O, _ => s
  | S n', String _ r => slice n' r
  | S _, EmptyString => EmptyString
  end.

(** [req.headers.authorization || ''] *)
Definition header_or_empty (h : option string) : string :=
  match h with
  | Some s => s
  | None => ""
  end.

(** [authHeader.startsWith('Bearer ') ? authHeader.slice(7) : null] *)
Definition bearer_token (authHeader : string) : option string :=
  if String.prefix "Bearer " authHeader then Some (slice 7 authHeader) else None.

(** [return res.status(401).json({ error: 'Unauthorized: missing token' })] *)
Definition reject_missing : M request unit :=
  emit (Respond 401 "Unauthorized: missing token").

(** The [try] block and its [catch], for a token that is present. *)
Definition verify_and_continue (token : string) : M request unit :=
  try_catch
    (decoded <- await_verifyIdToken token ;;
     set_firebaseUser decoded ;;
     call_next)
    (fun error =>
       emit (ConsoleError "Error verifyIdToken:") ;;
       emit (Respond 401 "Unauthorized: invalid token")).

(** [!token] holds for [null] and for the empty string. *)
Definition requireAuth : M request unit :=
  fun req =>
    let authHeader := header_or_empty (authorization req) in
    match bearer_token authHeader with
    | Some token =>
        if (token =? "")%string then reject_missing req
        else verify_and_continue token req
    | None => reject_missing req
    end.

End Middleware.

End Auth.

(** ** The data store behind [supabaseClient.js]

    The tables the services read and write, and the client's replies. A
    calendar day ['YYYY-MM-DD'] is held as its day number, as the store's DATE
    column does, so that the day after [d] is [d + 1]; [logged_at] is a
    timestamp in the store's resolution. *)

Module FoodLog.
Record t : Type := {
  id : Z;
  user_id : string;
  date : Z;
  food_name_custom : string;
  calories : Js.value;
  food_id : option Z;
  logged_at : Z
}.
End FoodLog.

Module Makanan.
(** The nutrient columns of a catalog entry. *)
Record t : Type := {
  proteins : Js.value;
  fat : Js.value;
  carbohydrate : Js.value
}.
End Makanan.

Module User.
Record t : Type := {
  id : Z;
  firebase_uid : string;
  email : option string;
  username : option string;
  daily_calorie_target : option float
}.
End User.

Module Store.

Inductive verb : Type := Select | Insert | Update | Delete.

Inductive event : Type :=
| Query (table : string) (v : verb)  (* one awaited call of the client *)
| ConsoleError (label : string).

(** How the next call of the client ends: it answers, it answers with an
    [error], or the awaited promise rejects. *)
Inductive fault : Type :=
| Healthy
| Fails (e : js_error)
| Crashes (e : js_error).

Record world : Type := {
  food_logs : list FoodLog.t;
  makanan : list (Z * Makanan.t);   (* catalog entries by id *)
  users : list User.t;
  faults : list fault;              (* how the coming calls end *)
  trace : list event
}.

(** The [{ data, error }] object of the client; [None] is [null]. *)
Record reply (A : Type) : Type := {
  data : option A;
  error : option js_error
}.
Arguments data {A} r.
Arguments error {A} r.

Definition answer {A} (a : A) : reply A := {| data := Some a; error := None |}.
Definition failed {A} (e : js_error) : reply A := {| data := None; error := Some e |}.

Definition next_fault (w : world) : fault :=
  match faults w with
  | f :: _ => f
  | [] => Healthy
  end.

Definition record (e : event) (w : world) : world :=
  {| food_logs := food_logs w; makanan := makanan w; users := users w;
     faults := faults w; trace := trace w ++ [e] |}.

Definition consume_fault (w : world) : world :=
  {| food_logs := food_logs w; makanan := makanan w; users := users w;
     faults := tl (faults w); trace := trace w |}.

Definition with_users (us : list User.t) (w : world) : world :=
  {| food_logs := food_logs w; makanan := makanan w; users := us;
     faults := faults w; trace := trace w |}.

(** One awaited call: it is recorded, then ends as the next fault says; a
    healthy call runs [exec] on the tables. *)
Definition call {A} (table : string) (v : verb)
    (exec : world -> reply A * world) : M world (reply A) :=
  fun w =>
    let w' := record (Query table v) (consume_fault w) in
    match next_fault w with
    | Healthy => let (r, w'') := exec w' in (Returns r, w'')
    | Fails e => (Returns (failed e), w')
    | Crashes e => (Throws e, w')
    end.

Definition console_error (label : string) : M world unit :=
  fun w => (Returns tt, record (ConsoleError label) w).

(** [.order('logged_at', { ascending: true })]: rows with equal keys keep
    their order. *)
Fixpoint insert_by_logged_at (r : FoodLog.t) (l : list FoodLog.t) : list FoodLog.t :=
  match l with
  | [] => [r]
  | x :: l' =>
      if FoodLog.logged_at r <=? FoodLog.logged_at x then r :: l
      else x :: insert_by_logged_at r l'
  end.

Definition order_by_logged_at (l : list FoodLog.t) : list FoodLog.t :=
  fold_right insert_by_logged_at [] l.

(** [.eq('user_id', userId).eq('date', date)] *)
Definition on_date (userId : string) (date : Z) (r : FoodLog.t) : bool :=
  (FoodLog.user_id r =? userId)%string && (FoodLog.date r =? date).

(** [.eq('user_id', userId).gte('date', startDate).lte('date', endDate)] *)
Definition in_range (userId : string) (startDate endDate : Z) (r : FoodLog.t) : bool :=
  (FoodLog.user_id r =? userId)%string
  && (startDate <=? FoodLog.date r) && (FoodLog.date r <=? endDate).

(** [.maybeSingle()]: no row is [null], one row is that row, more is an error. *)
Definition maybeSingle {A} (rows : list A) : reply A :=
  match rows with
  | [] => {| data := None; error := None |}
  | [r] => answer r
  | _ => failed (RemoteError "PGRST116")
  end.

(** [.single()]: exactly one row, or an error. *)
Definition single {A} (rows : list A) : reply A :=
  match rows with
  | [r] => answer r
  | _ => failed (RemoteError "PGRST116")
  end.

(** The id the store gives to the next row of [users]. *)
Definition fresh_user_id (us : list User.t) : Z :=
  1 + fold_right Z.max 0 (map User.id us).

(** A number in a request body goes through [JSON.stringify]: [NaN] and the
    infinities become [null], [-0] becomes [0]. *)
Definition json_number (v : option float) : option float :=
  match v with
  | Some n =>
      if is_finite n then Some (if is_zero n then zero else n) else None
  | None => None
  end.

(** A value in a request body goes through [JSON.stringify] as well: a
    property that is [undefined] is left out, and the column stays [null]. *)
Definition json_value (v : Js.value) : Js.value :=
  match v with
  | Js.Undefined => Js.Null
  | Js.Num n =>
      match json_number (Some n) with
      | Some m => Js.Num m
      | None => Js.Null
      end
  | _ => v
  end.

Definition with_food_logs (ls : list FoodLog.t) (w : world) : world :=
  {| food_logs := ls; makanan := makanan w; users := users w;
     faults := faults w; trace := trace w |}.

(** The id the store gives to the next row of [food_logs]. *)
Definition fresh_log_id (ls : list FoodLog.t) : Z :=
  1 + fold_right Z.max 0 (map FoodLog.id ls).

End Store.

(** ** The food-log services ([src/services/foodLogsService.js]) *)

Module FoodLogs.
Import Store.

Local Open Scope float_scope.

(** [if (error) throw error] *)
Definition throw_if_error {A} (r : reply A) : M world unit :=
  match error r with
  | Some e => throw e
  | None => ret tt
  end.

(** [data || []] *)
Definition rows_or_empty {A} (d : option (list A)) : list A :=
  match d with
  | Some rows => rows
  | None => []
  end.

Definition getFoodLogsByDate (userId : string) (date : Z) : M world (list FoodLog.t) :=
  r <- call "food_logs" Select
         (fun w => (answer (order_by_logged_at
                              (filter (on_date userId date) (food_logs w))), w)) ;;
  throw_if_error r ;;
  ret (rows_or_empty (data r)).

(** A row of [.select('calories')]. *)
Record calories_row : Type := { calories : Js.value }.

(** [(sum, row) => sum + Number(row.calories || 0)] *)
Definition add_calories (sum : float) (row : calories_row) : float :=
  sum + Js.Number (Js.logical_or (calories row) (Js.Num 0)).

Definition getTotalCaloriesInRange (userId : string) (startDate endDate : Z)
  : M world float :=
  r <- call "food_logs" Select
         (fun w => (answer (map (fun l => {| calories := FoodLog.calories l |})
                              (filter (in_range userId startDate endDate)
                                 (food_logs w))), w)) ;;
  throw_if_error r ;;
  ret (fold_left add_calories (rows_or_empty (data r)) 0).

(** A row of [.select('calories, makanan!inner(proteins, fat, carbohydrate)')]. *)
Record nutrition_row : Type := {
  row_calories : Js.value;
  row_makanan : option Makanan.t
}.

(** The inner join on [food_logs.food_id -> makanan.id]: a log without a
    catalog entry gives no row. *)
Definition join_makanan (catalog : list (Z * Makanan.t)) (l : FoodLog.t)
  : list nutrition_row :=
  match FoodLog.food_id l with
  | Some k =>
      match find (fun entry => fst entry =? k)%Z catalog with
      | Some entry =>
          [ {| row_calories := FoodLog.calories l;
               row_makanan := Some (snd entry) |} ]
      | None => []
      end
  | None => []
  end.

Record summary : Type := { protein : float; carbs : float; fat : float }.

Definition zero_summary : summary := {| protein := 0; carbs := 0; fat := 0 |}.

(** The body of the [for] loop over the rows. *)
Definition add_nutrients (acc : summary) (row : nutrition_row) : summary :=
  match row_makanan row with
  | None => acc
  | Some food =>
      {| protein := protein acc + Js.Number (Js.logical_or (Makanan.proteins food) (Js.Num 0));
         carbs := carbs acc + Js.Number (Js.logical_or (Makanan.carbohydrate food) (Js.Num 0));
         fat := fat acc + Js.Number (Js.logical_or (Makanan.fat food) (Js.Num 0)) |}
  end.

Definition getDailyNutritionSummary (userId : string) (date : Z) : M world summary :=
  try_catch
    (r <- call "food_logs" Select
            (fun w => (answer (flat_map (join_makanan (makanan w))
                                 (filter (on_date userId date) (food_logs w))), w)) ;;
     match error r with
     | Some _ =>
         console_error "Supabase error getDailyNutritionSummary:" ;;
         ret zero_summary
     | None =>
         ret (fold_left add_nutrients (rows_or_empty (data r)) zero_summary)
     end)
    (fun err =>
       console_error "Unexpected error getDailyNutritionSummary:" ;;
       ret zero_summary).

(** [.insert({ user_id, date, food_name_custom, calories, food_id })
    .select('*').single()]: the store gives the row its id and its
    [logged_at], the reading [now] of its clock at the insert. *)
Definition insert_food_log (now : Z) (userId : string) (date : Z)
    (foodName : string) (calories : Js.value) (foodId : option Z)
  : M world (reply FoodLog.t) :=
  call "food_logs" Insert
    (fun w =>
       let row := {| FoodLog.id := fresh_log_id (food_logs w);
                     FoodLog.user_id := userId;
                     FoodLog.date := date;
                     FoodLog.food_name_custom := foodName;
                     FoodLog.calories := json_value calories;
                     FoodLog.food_id := foodId;
                     FoodLog.logged_at := now |} in
       (single [row], with_food_logs (food_logs w ++ [row]) w)).

(** [foodId] is [None] for [null] and for the default of a missing
    property; the result is [data] as the client gives it. *)
Definition addFoodLog (now : Z) (userId : string) (date : Z)
    (foodName : string) (calories : Js.value) (foodId : option Z)
  : M world (option FoodLog.t) :=
  r <- insert_food_log now userId date foodName calories foodId ;;
  throw_if_error r ;;
  ret (data r).

(** [.delete().eq('id', id)]: a call that matches no row is no error. *)
Definition deleteFoodLog (id : Z) : M world unit :=
  r <- call "food_logs" Delete
         (fun w => ({| data := @None unit; error := None |},
                    with_food_logs
                      (filter (fun l => negb (FoodLog.id l =? id)%Z) (food_logs w))
                      w)) ;;
  throw_if_error r.

End FoodLogs.

(** ** The user services ([src/services/foodLogsService.js], second part) *)

Module Users.
Import Store.

(** [!s] for an optional string: absent or empty. *)
Definition absent (s : option string) : bool :=
  match s with
  | Some t => (t =? "")%string
  | None => true
  end.

(** [email.split('@')[0]]: the characters before the first ['@']. *)
Fixpoint local_part (email : string) : string :=
  match email with
  | String c r => if (Js.code c =? 64)%Z then EmptyString else String c (local_part r)
  | EmptyString => EmptyString
  end.

(** [username || (email ? email.split('@')[0] : null)] *)
Definition effective_username (username email : option string) : option string :=
  if absent username then
    match email with
    | Some e => if (e =? "")%string then None else Some (local_part e)
    | None => None
    end
  else username.

(** [.select('id').eq('firebase_uid', firebase_uid).maybeSingle()] *)
Definition select_id_by_firebase_uid (uid : string) : M world (reply Z) :=
  call "users" Select
    (fun w => (maybeSingle
                 (map User.id
                    (filter (fun u => (User.firebase_uid u =? uid)%string) (users w))),
               w)).

(** [.insert({ firebase_uid, email, username }).select('id').single()]: the
    new row gets a fresh id and no calorie target. The unique constraint on
    [firebase_uid] is not modelled: the service inserts only after a lookup
    that found no row. *)
Definition insert_user (uid : string) (email username : option string)
  : M world (reply Z) :=
  call "users" Insert
    (fun w =>
       let row := {| User.id := fresh_user_id (users w);
                     User.firebase_uid := uid;
                     User.email := email;
                     User.username := username;
                     User.daily_calorie_target := None |} in
       (single [User.id row], with_users (users w ++ [row]) w)).

Definition syncFirebaseUser (firebase_uid email username : option string)
  : M world Z :=
  match firebase_uid with
  | Some uid =>
      if (uid =? "")%string then throw (JsError "firebase_uid is required")
      else
        let effectiveUsername := effective_username username email in
        r <- select_id_by_firebase_uid uid ;;
        match error r with
        | Some selectError =>
            console_error "Gagal cek user di Supabase (backend):" ;;
            throw selectError
        | None =>
            match data r with
            | Some existing => ret existing
            | None =>
                r' <- insert_user uid email effectiveUsername ;;
                match error r' with
                | Some insertError =>
                    console_error "Gagal insert user ke Supabase (backend):" ;;
                    throw insertError
                | None =>
                    match data r' with
                    | Some id => ret id
                    | None => throw (JsError "TypeError")
                    end
                end
            end
        end
  | None => throw (JsError "firebase_uid is required")
  end.

Definition getUserDailyCalorieTarget (userId : Z) : M world (option float) :=
  r <- call "users" Select
         (fun w => (maybeSingle
                      (map User.daily_calorie_target
                         (filter (fun u => User.id u =? userId) (users w))), w)) ;;
  FoodLogs.throw_if_error r ;;
  (* [data?.daily_calorie_target ?? null] *)
  ret (match data r with
       | Some target => target
       | None => None
       end).

(** [.update({ daily_calorie_target: value }).eq('id', userId)] *)
Definition set_target (userId : Z) (value : option float) (u : User.t) : User.t :=
  if User.id u =? userId then
    {| User.id := User.id u;
       User.firebase_uid := User.firebase_uid u;
       User.email := User.email u;
       User.username := User.username u;
       User.daily_calorie_target := json_number value |}
  else u.

(** [target == null ? null : Number(target)] *)
Definition normalize_target (target : Js.value) : option float :=
  if Js.nullish target then None else Some (Js.Number target).

Definition updateUserDailyCalorieTarget (userId : Z) (target : Js.value)
  : M world (option float) :=
  let value := normalize_target target in
  r <- call "users" Update
         (fun w => ({| data := @None unit; error := None |},
                    with_users (map (set_target userId value) (users w)) w)) ;;
  FoodLogs.throw_if_error r ;;
  ret value.

End Users.

(** * Properties *)

Arguments Auth.requireAuth {identity} env req.
Arguments Auth.authorization {identity} r.
Arguments Auth.firebaseUser {identity} r.
Arguments Auth.trace {identity} r.

(** ** Vocabulary of the statements, and sample inputs *)

(** An environment and requests to run the middleware on. *)
Definition accept_all : Auth.environment string :=
  {| Auth.verifyIdToken := fun token => Returns token;
     Auth.next_throws := None |}.

Definition request_with (header : option string) : Auth.request string :=
  {| Auth.authorization := header; Auth.firebaseUser := None; Auth.trace := [] |}.

(** What a rejection for a missing token looks like: the middleware returns,
    the only thing it did was to send the 401 response with the fixed
    message (so [verifyIdToken] and [next] were not called), and no
    identity was attached. *)
Definition rejected_as_missing {identity} (env : Auth.environment identity)
    (req : Auth.request identity) : Prop :=
  fst (Auth.requireAuth env req) = Returns tt
  /\ Auth.trace (snd (Auth.requireAuth env req))
     = (Auth.trace req ++ [Auth.Respond 401 "Unauthorized: missing token"])%list
  /\ Auth.firebaseUser (snd (Auth.requireAuth env req)) = Auth.firebaseUser req.

(** The rows of the summary's query on a healthy store. *)
Definition nutrition_rows (userId : string) (date : Z) (w : Store.world)
  : list FoodLogs.nutrition_row :=
  flat_map (FoodLogs.join_makanan (Store.makanan w))
    (filter (Store.on_date userId date) (Store.food_logs w)).

(** A store without rows, and with no fault in sight. *)
Definition empty_world : Store.world :=
  {| Store.food_logs := []; Store.makanan := []; Store.users := [];
     Store.faults := []; Store.trace := [] |}.

(** The next [n] calls of the client end well. *)
Definition healthy (n : nat) (w : Store.world) : Prop :=
  forall i, (i < n)%nat -> nth i (Store.faults w) Store.Healthy = Store.Healthy.

(** The rows of [users] with the given id. *)
Definition users_with_id (userId : Z) (w : Store.world) : list User.t :=
  filter (fun u => User.id u =? userId) (Store.users w).


(** A store with two users, the first without a calorie target. *)
Definition two_users : Store.world :=
  {| Store.food_logs := [];
     Store.makanan := [];
     Store.users :=
       [ {| User.id := 1; User.firebase_uid := "abc"; User.email := Some "a@b.com";
            User.username := Some "a"; User.daily_calorie_target := None |};
         {| User.id := 2; User.firebase_uid := "def"; User.email := Some "d@e.com";
            User.username := Some "d"; User.daily_calorie_target := Some 2000%float |} ];
     Store.faults := [];
     Store.trace := [] |}.

(** Sample food logs; day 19000 is 2022-01-08. *)
Definition log (id : Z) (user : string) (date : Z) (calories : Js.value)
    (logged_at : Z) : FoodLog.t :=
  {| FoodLog.id := id; FoodLog.user_id := user; FoodLog.date := date;
     FoodLog.food_name_custom := "nasi"; FoodLog.calories := calories;
     FoodLog.food_id := None; FoodLog.logged_at := logged_at |}.

Definition world_of_logs (logs : list FoodLog.t) : Store.world :=
  {| Store.food_logs := logs; Store.makanan := []; Store.users := [];
     Store.faults := []; Store.trace := [] |}.

(** One day with two logs of one user, entered out of order, and a log of
    another user. *)
Definition three_logs : Store.world :=
  world_of_logs
    [ log 1 "u1" 19000 (Js.Num 300) 50;
      log 2 "u1" 19000 (Js.Num 150) 20;
      log 3 "u2" 19000 (Js.Num 500) 10 ].

(** The [calories] column of the rows the range query selects. *)
Definition calories_in_range (userId : string) (startDate endDate : Z)
    (w : Store.world) : list Js.value :=
  map FoodLog.calories
    (filter (Store.in_range userId startDate endDate) (Store.food_logs w)).

(** What one row adds to the total: [Number(row.calories || 0)]. *)
Definition contribution (calories : Js.value) : float :=
  Js.Number (Js.logical_or calories (Js.Num 0)).

(** The total as the specification words it: a value that is missing or
    does not convert to a number counts as 0. *)
Definition numeric_or_zero (calories : Js.value) : float :=
  if is_nan (Js.Number calories) then 0%float else Js.Number calories.

Definition total_as_specified (calories : list Js.value) : float :=
  fold_left (fun sum v => (sum + numeric_or_zero v)%float) calories 0%float.

(** One day of one user with a row whose calories is not a number. *)
Definition with_text_calories : Store.world :=
  world_of_logs
    [ log 1 "u1" 19000 (Js.Num 300) 10;
      log 2 "u1" 19000 (Js.Str "abc") 20 ].

(** *** Whole numbers as binary64 values *)

(** [p] shifted left by [n] binary places. *)
Definition shl (p : positive) (n : nat) : positive := Nat.iter n xO p.

(** The record of a right shift that has lost nothing so far. *)
Definition exact (m : positive) : shr_record :=
  {| shr_m := Zpos m; shr_r := false; shr_s := false |}.

(** The integer [z] rounded to binary64, as [Js.of_Z] builds it. *)
Definition whole (z : Z) : spec_float := binary_normalize prec emax z 0 false.

(** A [calories] value that is missing, or a whole number that is not
    negative, with the integer it stands for. *)
Inductive whole_calories : Js.value -> Z -> Prop :=
| whole_null : whole_calories Js.Null 0
| whole_undefined : whole_calories Js.Undefined 0
| whole_number (n : Z) : 0 <= n -> whole_calories (Js.Num (Js.of_Z n)) n.

(** The sum of a list of integers. *)
Definition Zsum (ns : list Z) : Z := fold_right Z.add 0 ns.

(** The totals over [a, b] and [b + 1, c] add up to the total over [a, c]. *)
Definition additive_at (userId : string) (a b c : Z) (w : Store.world) : Prop :=
  exists t1 t2 t,
    fst (FoodLogs.getTotalCaloriesInRange userId a b w) = Returns t1
    /\ fst (FoodLogs.getTotalCaloriesInRange userId (b + 1) c w) = Returns t2
    /\ fst (FoodLogs.getTotalCaloriesInRange userId a c w) = Returns t
    /\ (t1 + t2)%float = t.

(** Two days of one user, with calories to one decimal place. *)
Definition with_decimal_calories : Store.world :=
  world_of_logs
    [ log 1 "u1" 19000 (Js.Num 52.1) 10;
      log 2 "u1" 19001 (Js.Num 89.4) 20;
      log 3 "u1" 19001 (Js.Num 110.2) 30 ].

(** Two days of one user, with whole calories and one row without a value. *)
Definition with_whole_calories : Store.world :=
  world_of_logs
    [ log 1 "u1" 19000 (Js.Num 300) 10;
      log 2 "u1" 19001 (Js.Num 150) 20;
      log 3 "u1" 19001 Js.Null 25;
      log 4 "u1" 19001 (Js.Num 520) 30 ].

(** ** Further vocabulary: middleware *)

(** An identity provider that refuses every token, and a next handler that
    throws. *)
Definition refuse_all : Auth.environment string :=
  {| Auth.verifyIdToken := fun _ => Throws (RemoteError "auth/argument-error");
     Auth.next_throws := None |}.

Definition failing_next : Auth.environment string :=
  {| Auth.verifyIdToken := fun token => Returns token;
     Auth.next_throws := Some (JsError "handler failed") |}.

(** The events a run of the middleware adds to the trace of the request. *)
Definition added_events {identity} (env : Auth.environment identity)
    (req : Auth.request identity) (new : list Auth.event) : Prop :=
  Auth.trace (snd (Auth.requireAuth env req)) = (Auth.trace req ++ new)%list.

Definition is_response (e : Auth.event) : bool :=
  match e with
  | Auth.Respond _ _ => true
  | _ => false
  end.

(** ** Further vocabulary: food logs *)

(** The row the store makes of the arguments of [addFoodLog]. *)
Definition new_log (now : Z) (userId : string) (date : Z) (foodName : string)
    (calories : Js.value) (foodId : option Z) (w : Store.world) : FoodLog.t :=
  {| FoodLog.id := Store.fresh_log_id (Store.food_logs w);
     FoodLog.user_id := userId;
     FoodLog.date := date;
     FoodLog.food_name_custom := foodName;
     FoodLog.calories := Store.json_value calories;
     FoodLog.food_id := foodId;
     FoodLog.logged_at := now |}.

(** The tables of two worlds are the same. *)
Definition same_tables (w w' : Store.world) : Prop :=
  Store.food_logs w' = Store.food_logs w
  /\ Store.makanan w' = Store.makanan w
  /\ Store.users w' = Store.users w.

(** The log has a catalog entry to join. *)
Definition has_entry (catalog : list (Z * Makanan.t)) (l : FoodLog.t) : bool :=
  match FoodLog.food_id l with
  | Some k => existsb (fun entry => fst entry =? k) catalog
  | None => false
  end.

(** A catalog of two foods, and a day with a log of each kind: one from the
    catalog, one with a custom name only, one with an id the catalog lacks. *)
Definition nasi_goreng : Makanan.t :=
  {| Makanan.proteins := Js.Num 12; Makanan.fat := Js.Num 9;
     Makanan.carbohydrate := Js.Num 45 |}.

Definition tempe : Makanan.t :=
  {| Makanan.proteins := Js.Num 19; Makanan.fat := Js.Num 11;
     Makanan.carbohydrate := Js.Num 8 |}.

Definition log_of (id : Z) (foodId : option Z) : FoodLog.t :=
  {| FoodLog.id := id; FoodLog.user_id := "u1"; FoodLog.date := 19000;
     FoodLog.food_name_custom := "makan siang"; FoodLog.calories := Js.Num 400;
     FoodLog.food_id := foodId; FoodLog.logged_at := id |}.

Definition with_catalog : Store.world :=
  {| Store.food_logs := [log_of 1 (Some 1); log_of 2 None; log_of 3 (Some 99)];
     Store.makanan := [(1, nasi_goreng); (2, tempe)];
     Store.users := [];
     Store.faults := [];
     Store.trace := [] |}.

(** The store answers the next call with this error. *)
Definition failing_with (e : js_error) (w : Store.world) : Store.world :=
  {| Store.food_logs := Store.food_logs w; Store.makanan := Store.makanan w;
     Store.users := Store.users w; Store.faults := [Store.Fails e];
     Store.trace := Store.trace w |}.

(** The same logs as [with_whole_calories], as the store may hold them in
    another order. *)
Definition with_whole_calories_reordered : Store.world :=
  world_of_logs
    [ log 4 "u1" 19001 (Js.Num 520) 30;
      log 3 "u1" 19001 Js.Null 25;
      log 2 "u1" 19001 (Js.Num 150) 20;
      log 1 "u1" 19000 (Js.Num 300) 10 ].

(** ** Further vocabulary: users *)

(** The rows of [users] with the given Firebase uid. *)
Definition users_with_uid (uid : string) (w : Store.world) : list User.t :=
  filter (fun u => (User.firebase_uid u =? uid)%string) (Store.users w).

(** The row the store makes for a user that is synchronised first. *)
Definition new_user (uid : string) (email username : option string)
    (w : Store.world) : User.t :=
  {| User.id := Store.fresh_user_id (Store.users w);
     User.firebase_uid := uid;
     User.email := email;
     User.username := Users.effective_username username email;
     User.daily_calorie_target := None |}.

(** The store answers the first call and fails the second with this error. *)
Definition failing_second (e : js_error) (w : Store.world) : Store.world :=
  {| Store.food_logs := Store.food_logs w; Store.makanan := Store.makanan w;
     Store.users := Store.users w;
     Store.faults := [Store.Healthy; Store.Fails e];
     Store.trace := Store.trace w |}.

(** What an update may change of a row: nothing but the calorie target, and
    not even that in the row of another user. *)
Definition only_target_of (userId : Z) (before after : User.t) : Prop :=
  User.id after = User.id before
  /\ User.firebase_uid after = User.firebase_uid before
  /\ User.email after = User.email before
  /\ User.username after = User.username before
  /\ (User.id before <> userId -> after = before).

(** ** The authentication middleware *)

Lemma no_bearer_rejected {identity} (env : Auth.environment identity) req :
  Auth.bearer_token (Auth.header_or_empty (Auth.authorization req)) = None ->
  rejected_as_missing env req.
Proof.
  intros Hnone. unfold rejected_as_missing, Auth.requireAuth.
  rewrite Hnone. cbn. repeat split.
Qed.

(** C2: a request whose [Authorization] header is absent, or does not start
    with ['Bearer '], is answered 401 "Unauthorized: missing token" and
    [verifyIdToken] is never called. *)
Theorem requireAuth_missing_token :
  forall identity (env : Auth.environment identity) (req : Auth.request identity),
    (Auth.authorization req = None
     \/ exists h, Auth.authorization req = Some h
                  /\ String.prefix "Bearer " h = false) ->
    rejected_as_missing env req.
Proof.
  intros identity env req [Habsent | [h [Hsome Hprefix]]];
    apply no_bearer_rejected.
  - rewrite Habsent. reflexivity.
  - rewrite Hsome. cbn [Auth.header_or_empty]. unfold Auth.bearer_token.
    rewrite Hprefix. reflexivity.
Qed.

Lemma requireAuth_missing_token_witness :
  rejected_as_missing accept_all (request_with (Some "Basic dXNlcjpwdw==")).
Proof.
  apply (requireAuth_missing_token string accept_all
           (request_with (Some "Basic dXNlcjpwdw=="))).
  right. exists "Basic dXNlcjpwdw==". split; reflexivity.
Defined.

(** C10: the header ['Bearer '] with nothing after the prefix is classified
    as a missing token as well: 401 "Unauthorized: missing token", and
    [verifyIdToken] is not called. *)
Theorem requireAuth_empty_bearer :
  forall identity (env : Auth.environment identity) (req : Auth.request identity),
    Auth.authorization req = Some "Bearer " ->
    rejected_as_missing env req.
Proof.
  intros identity env req Hheader.
  unfold rejected_as_missing, Auth.requireAuth. rewrite Hheader.
  cbn. repeat split.
Qed.

Lemma requireAuth_empty_bearer_witness :
  rejected_as_missing accept_all (request_with (Some "Bearer ")).
Proof.
  apply (requireAuth_empty_bearer string accept_all (request_with (Some "Bearer "))).
  reflexivity.
Defined.

(** ** Calls of the client *)

Lemma call_healthy {A} table v (exec : Store.world -> Store.reply A * Store.world) w :
  Store.next_fault w = Store.Healthy ->
  Store.call table v exec w
  = (Returns (fst (exec (Store.record (Store.Query table v) (Store.consume_fault w)))),
     snd (exec (Store.record (Store.Query table v) (Store.consume_fault w)))).
Proof.
  intros Hhealthy. unfold Store.call. rewrite Hhealthy.
  destruct (exec _); reflexivity.
Qed.

Lemma call_fails {A} table v (exec : Store.world -> Store.reply A * Store.world) w e :
  Store.next_fault w = Store.Fails e ->
  Store.call table v exec w
  = (Returns (Store.failed e),
     Store.record (Store.Query table v) (Store.consume_fault w)).
Proof. intros Hfails. unfold Store.call. rewrite Hfails. reflexivity. Qed.

Lemma call_crashes {A} table v (exec : Store.world -> Store.reply A * Store.world) w e :
  Store.next_fault w = Store.Crashes e ->
  Store.call table v exec w
  = (Throws e, Store.record (Store.Query table v) (Store.consume_fault w)).
Proof. intros Hcrashes. unfold Store.call. rewrite Hcrashes. reflexivity. Qed.

(** ** The daily nutrition summary *)

(** C1: [getDailyNutritionSummary] never throws. Whatever the store holds and
    however its call ends, a summary is returned; when the query answers
    with an error, or the awaited call throws, it is the zero summary, and
    the cause is written to the console. *)
Theorem getDailyNutritionSummary_never_throws :
  forall (userId : string) (date : Z) (w : Store.world),
    let out := FoodLogs.getDailyNutritionSummary userId date w in
    let query := Store.Query "food_logs" Store.Select in
    (forall e, fst out <> Throws e)
    /\ match Store.next_fault w with
       | Store.Healthy =>
           fst out
           = Returns (fold_left FoodLogs.add_nutrients (nutrition_rows userId date w)
                        FoodLogs.zero_summary)
       | Store.Fails _ =>
           fst out = Returns FoodLogs.zero_summary
           /\ Store.trace (snd out)
              = (Store.trace w
                 ++ [query;
                     Store.ConsoleError "Supabase error getDailyNutritionSummary:"])%list
       | Store.Crashes _ =>
           fst out = Returns FoodLogs.zero_summary
           /\ Store.trace (snd out)
              = (Store.trace w
                 ++ [query;
                     Store.ConsoleError "Unexpected error getDailyNutritionSummary:"])%list
       end.
Proof.
  intros userId date w out query. subst out query.
  unfold FoodLogs.getDailyNutritionSummary, try_catch, bind.
  destruct (Store.next_fault w) as [ | e | e] eqn:Hfault.
  - rewrite (call_healthy _ _ _ _ Hfault). cbn. split; [discriminate | reflexivity].
  - rewrite (call_fails _ _ _ _ _ Hfault). cbn.
    split; [discriminate | split; [reflexivity | ]].
    rewrite <- app_assoc. reflexivity.
  - rewrite (call_crashes _ _ _ _ _ Hfault). cbn.
    split; [discriminate | split; [reflexivity | ]].
    rewrite <- app_assoc. reflexivity.
Qed.

(** ** Synchronising a Firebase user *)

(** C3: without a [firebase_uid] (absent or empty) [syncFirebaseUser] throws
    the validation error at once: no call of the store is made and the
    world, the [users] table included, is as it was. *)
Theorem syncFirebaseUser_requires_uid :
  forall (firebase_uid email username : option string) (w : Store.world),
    Users.absent firebase_uid = true ->
    Users.syncFirebaseUser firebase_uid email username w
    = (Throws (JsError "firebase_uid is required"), w).
Proof.
  intros [uid | ] email username w Habsent; cbn in *.
  - rewrite Habsent. reflexivity.
  - reflexivity.
Qed.

Lemma syncFirebaseUser_requires_uid_witness :
  Users.syncFirebaseUser None (Some "a@b.com") None empty_world
  = (Throws (JsError "firebase_uid is required"), empty_world).
Proof.
  apply (syncFirebaseUser_requires_uid None (Some "a@b.com") None empty_world).
  reflexivity.
Defined.

Lemma healthy_next n w : healthy (S n) w -> Store.next_fault w = Store.Healthy.
Proof.
  intros H. specialize (H 0%nat (Nat.lt_0_succ n)).
  unfold Store.next_fault. destruct (Store.faults w); [reflexivity | exact H].
Qed.

Lemma healthy_consume n w : healthy (S n) w -> healthy n (Store.consume_fault w).
Proof.
  intros H i Hi. specialize (H (S i) (proj1 (Nat.succ_lt_mono i n) Hi)).
  cbn. destruct (Store.faults w); [destruct i; reflexivity | exact H].
Qed.

Lemma local_part_before_at (name domain : string) :
  (forall c, In c (list_ascii_of_string name) -> c <> "@"%char) ->
  Users.local_part (name ++ "@" ++ domain) = name.
Proof.
  induction name as [ | c name IH]; intros Hno.
  - reflexivity.
  - cbn. destruct (Js.code c =? 64) eqn:Hc.
    + exfalso. apply (Hno c); [left; reflexivity | ].
      apply Z.eqb_eq in Hc. unfold Js.code in Hc.
      rewrite <- (ascii_nat_embedding c).
      replace (nat_of_ascii c) with 64%nat by lia. reflexivity.
    + f_equal. apply IH. intros c' Hin. apply Hno. right. exact Hin.
Qed.

Lemma filter_none {A} (f : A -> bool) (l : list A) :
  (forall x, In x l -> f x = false) -> filter f l = [].
Proof.
  induction l as [ | a l IH]; intros Hall; [reflexivity | ].
  cbn. rewrite (Hall a (or_introl eq_refl)). apply IH.
  intros x Hx. apply Hall. right. exact Hx.
Qed.

(** C7: for a new Firebase user (no row of [users] has the uid) synchronised
    without a username and with the email [name@domain], the row that is
    inserted has the email's local part [name] as its username; the id of
    that row is returned. *)
Theorem syncFirebaseUser_derives_username :
  forall (uid name domain : string) (username : option string) (w : Store.world),
    uid <> "" ->
    Users.absent username = true ->
    (forall c, In c (list_ascii_of_string name) -> c <> "@"%char) ->
    (forall u, In u (Store.users w) -> User.firebase_uid u <> uid) ->
    healthy 2 w ->
    let email := name ++ "@" ++ domain in
    let out := Users.syncFirebaseUser (Some uid) (Some email) username w in
    fst out = Returns (Store.fresh_user_id (Store.users w))
    /\ Store.users (snd out)
       = (Store.users w
          ++ [ {| User.id := Store.fresh_user_id (Store.users w);
                  User.firebase_uid := uid;
                  User.email := Some email;
                  User.username := Some name;
                  User.daily_calorie_target := None |} ])%list.
Proof.
  intros uid name domain username w Huid Hname Hno Hnew Hhealthy email out.
  assert (Hselect : Store.next_fault w = Store.Healthy)
    by exact (healthy_next _ _ Hhealthy).
  assert (Hinsert : Store.next_fault
                      (Store.record (Store.Query "users" Store.Select)
                         (Store.consume_fault w)) = Store.Healthy).
  { apply (healthy_next 0). intros i Hi.
    exact (healthy_consume _ _ Hhealthy i Hi). }
  assert (Heff : Users.effective_username username (Some email) = Some name).
  { unfold Users.effective_username. rewrite Hname.
    subst email. rewrite (local_part_before_at name domain Hno).
    destruct name; reflexivity. }
  assert (Hnone : filter (fun u => (User.firebase_uid u =? uid)%string) (Store.users w) = []).
  { apply filter_none. intros u Hu. apply String.eqb_neq. exact (Hnew u Hu). }
  subst out. unfold Users.syncFirebaseUser.
  apply String.eqb_neq in Huid. rewrite Huid.
  unfold bind, Users.select_id_by_firebase_uid.
  rewrite (call_healthy _ _ _ _ Hselect). cbn [fst snd Store.users Store.record Store.consume_fault].
  rewrite Hnone. cbn [map Store.maybeSingle Store.error Store.data].
  unfold Users.insert_user. rewrite (call_healthy _ _ _ _ Hinsert).
  rewrite Heff. cbn. split; reflexivity.
Qed.

Lemma syncFirebaseUser_derives_username_witness :
  let out := Users.syncFirebaseUser (Some "uid-9") (Some "x@y.com") None two_users in
  fst out = Returns 3
  /\ Store.users (snd out)
     = (Store.users two_users
        ++ [ {| User.id := 3; User.firebase_uid := "uid-9";
                User.email := Some "x@y.com"; User.username := Some "x";
                User.daily_calorie_target := None |} ])%list.
Proof.
  apply (syncFirebaseUser_derives_username "uid-9" "x" "y.com" None two_users).
  - discriminate.
  - reflexivity.
  - intros c [Hc | []]. subst c. discriminate.
  - intros u [Hu | [Hu | []]]; subst u; discriminate.
  - intros i Hi. destruct i as [ | [ | i]]; reflexivity.
Defined.

(** ** The daily calorie target *)

Lemma getUserDailyCalorieTarget_healthy userId w :
  Store.next_fault w = Store.Healthy ->
  fst (Users.getUserDailyCalorieTarget userId w)
  = match users_with_id userId w with
    | [] => Returns None
    | [u] => Returns (User.daily_calorie_target u)
    | _ => Throws (RemoteError "PGRST116")
    end.
Proof.
  intros Hhealthy. unfold Users.getUserDailyCalorieTarget, bind.
  rewrite (call_healthy _ _ _ _ Hhealthy).
  cbn [fst snd Store.users Store.record Store.consume_fault].
  unfold users_with_id.
  destruct (filter _ (Store.users w)) as [ | u [ | u' rest]]; reflexivity.
Qed.

(** C9: [getUserDailyCalorieTarget] returns the numeric target of the user
    with the given id; it returns [null], and does not throw, when that
    user has no target and when no row of [users] has the id. *)
Theorem getUserDailyCalorieTarget_target_or_unset :
  forall (userId : Z) (w : Store.world),
    Store.next_fault w = Store.Healthy ->
    (forall u target,
        users_with_id userId w = [u] ->
        User.daily_calorie_target u = Some target ->
        fst (Users.getUserDailyCalorieTarget userId w) = Returns (Some target))
    /\ (forall u,
           users_with_id userId w = [u] ->
           User.daily_calorie_target u = None ->
           fst (Users.getUserDailyCalorieTarget userId w) = Returns None)
    /\ ((forall u, In u (Store.users w) -> User.id u <> userId) ->
        fst (Users.getUserDailyCalorieTarget userId w) = Returns None).
Proof.
  intros userId w Hhealthy.
  rewrite (getUserDailyCalorieTarget_healthy userId w Hhealthy).
  repeat split.
  - intros u target Hrow Htarget. rewrite Hrow, Htarget. reflexivity.
  - intros u Hrow Htarget. rewrite Hrow, Htarget. reflexivity.
  - intros Hnone. unfold users_with_id. rewrite filter_none; [reflexivity | ].
    intros u Hu. apply Z.eqb_neq. exact (Hnone u Hu).
Qed.

Lemma getUserDailyCalorieTarget_target_or_unset_witness :
  fst (Users.getUserDailyCalorieTarget 2 two_users) = Returns (Some 2000%float)
  /\ fst (Users.getUserDailyCalorieTarget 1 two_users) = Returns None
  /\ fst (Users.getUserDailyCalorieTarget 7 two_users) = Returns None.
Proof.
  split; [ | split].
  - refine (proj1 (getUserDailyCalorieTarget_target_or_unset 2 two_users eq_refl)
              _ 2000%float eq_refl eq_refl).
  - refine (proj1 (proj2 (getUserDailyCalorieTarget_target_or_unset 1 two_users eq_refl))
              _ eq_refl eq_refl).
  - apply (proj2 (proj2 (getUserDailyCalorieTarget_target_or_unset 7 two_users eq_refl))).
    intros u [Hu | [Hu | []]]; subst u; discriminate.
Defined.





(** ** Food logs of a day *)

Lemma insert_by_logged_at_perm r l :
  Permutation (Store.insert_by_logged_at r l) (r :: l).
Proof.
  induction l as [ | x l IH]; cbn.
  - apply Permutation_refl.
  - destruct (FoodLog.logged_at r <=? FoodLog.logged_at x).
    + apply Permutation_refl.
    + eapply perm_trans; [apply perm_skip, IH | apply perm_swap].
Qed.

Lemma order_by_logged_at_perm l : Permutation (Store.order_by_logged_at l) l.
Proof.
  induction l as [ | r l IH]; cbn.
  - apply perm_nil.
  - eapply perm_trans; [apply insert_by_logged_at_perm | apply perm_skip, IH].
Qed.







(** ** Totals of calories *)

Lemma Prim2SF_nan : Prim2SF nan = S754_nan.
Proof. reflexivity. Qed.

Lemma add_nan_r (x : float) : (x + nan)%float = nan.
Proof.
  apply Prim2SF_inj. rewrite add_spec, Prim2SF_nan.
  destruct (Prim2SF x); reflexivity.
Qed.

Lemma add_nan_l (x : float) : (nan + x)%float = nan.
Proof.
  apply Prim2SF_inj. rewrite add_spec, Prim2SF_nan. reflexivity.
Qed.

Lemma total_from_nan (cs : list Js.value) :
  fold_left (fun sum v => (sum + contribution v)%float) cs nan = nan.
Proof.
  induction cs as [ | c cs IH]; cbn; [reflexivity | ].
  rewrite add_nan_l. exact IH.
Qed.

Lemma total_poisoned (cs : list Js.value) (v : Js.value) (start : float) :
  In v cs -> contribution v = nan ->
  fold_left (fun sum v => (sum + contribution v)%float) cs start = nan.
Proof.
  revert start. induction cs as [ | c cs IH]; intros start Hin Hnan; [destruct Hin | ].
  cbn. destruct Hin as [Heq | Hin].
  - subst c. rewrite Hnan, add_nan_r. apply total_from_nan.
  - apply IH; assumption.
Qed.

Lemma getTotalCaloriesInRange_healthy userId startDate endDate w :
  Store.next_fault w = Store.Healthy ->
  fst (FoodLogs.getTotalCaloriesInRange userId startDate endDate w)
  = Returns (fold_left (fun sum v => (sum + contribution v)%float)
               (calories_in_range userId startDate endDate w) 0%float).
Proof.
  intros Hhealthy. unfold FoodLogs.getTotalCaloriesInRange, bind.
  rewrite (call_healthy _ _ _ _ Hhealthy).
  cbn [fst snd Store.food_logs Store.record Store.consume_fault
       Store.answer Store.error Store.data FoodLogs.throw_if_error ret
       FoodLogs.rows_or_empty].
  f_equal. unfold calories_in_range.
  generalize (filter (Store.in_range userId startDate endDate) (Store.food_logs w)).
  generalize 0%float.
  intros start rows. revert start.
  induction rows as [ | r rows IH]; intros start; [reflexivity | ].
  cbn. apply IH.
Qed.

(** C4, as stated, fails: with a row of 300 calories and a row whose
    calories is the string ["abc"], the total is [NaN], where counting the
    non-numeric value as 0 gives 300. *)
Lemma getTotalCaloriesInRange_text_is_not_zero :
  fst (FoodLogs.getTotalCaloriesInRange "u1" 19000 19000 with_text_calories)
  = Returns nan
  /\ total_as_specified (calories_in_range "u1" 19000 19000 with_text_calories)
     = 300%float
  /\ fst (FoodLogs.getTotalCaloriesInRange "u1" 19000 19000 with_text_calories)
     <> Returns (total_as_specified
                   (calories_in_range "u1" 19000 19000 with_text_calories)).
Proof.
  split; [reflexivity | split; [reflexivity | ]].
  intros H.
  assert (E : match fst (FoodLogs.getTotalCaloriesInRange "u1" 19000 19000
                           with_text_calories) with
              | Returns t => is_nan t
              | Throws _ => false
              end = true) by reflexivity.
  rewrite H in E. vm_compute in E. discriminate E.
Qed.

(** C4, amended: [getTotalCaloriesInRange] adds [Number(calories || 0)] over
    the selected rows. A missing ([null], [undefined]) or otherwise falsy
    value counts as 0; every other value counts as its [Number]
    conversion, so that a row whose calories is a non-numeric string makes
    the total [NaN]. *)
Theorem getTotalCaloriesInRange_falsy_as_zero :
  forall (userId : string) (startDate endDate : Z) (w : Store.world),
    Store.next_fault w = Store.Healthy ->
    let selected := calories_in_range userId startDate endDate w in
    fst (FoodLogs.getTotalCaloriesInRange userId startDate endDate w)
    = Returns (fold_left (fun sum v => (sum + contribution v)%float) selected 0%float)
    /\ contribution Js.Null = 0%float
    /\ contribution Js.Undefined = 0%float
    /\ (forall v, Js.truthy v = false -> contribution v = 0%float)
    /\ (forall v, Js.truthy v = true -> contribution v = Js.Number v)
    /\ (forall s, In (Js.Str s) selected -> Js.StringToNumber s = nan ->
        fst (FoodLogs.getTotalCaloriesInRange userId startDate endDate w)
        = Returns nan).
Proof.
  intros userId startDate endDate w Hhealthy selected.
  rewrite (getTotalCaloriesInRange_healthy _ _ _ _ Hhealthy). fold selected.
  repeat match goal with |- _ /\ _ => split end; try reflexivity.
  - intros v Hfalsy. unfold contribution, Js.logical_or. rewrite Hfalsy. reflexivity.
  - intros v Htruthy. unfold contribution, Js.logical_or. rewrite Htruthy. reflexivity.
  - intros s Hin Hnan. f_equal. apply (total_poisoned _ (Js.Str s)); [exact Hin | ].
    unfold contribution, Js.logical_or. cbn [Js.truthy].
    destruct (String.eqb_spec s "") as [Hempty | Hfull]; [ | exact Hnan].
    subst s. apply (f_equal is_nan) in Hnan. discriminate Hnan.
Qed.

Lemma getTotalCaloriesInRange_falsy_as_zero_witness :
  fst (FoodLogs.getTotalCaloriesInRange "u1" 19000 19000 with_text_calories)
  = Returns nan.
Proof.
  refine (proj2 (proj2 (proj2 (proj2 (proj2
            (getTotalCaloriesInRange_falsy_as_zero "u1" 19000 19000
               with_text_calories eq_refl)))))
            "abc" _ eq_refl).
  right. left. reflexivity.
Defined.

(** ** Exact sums of whole numbers

    Binary64 addition rounds, so it is not associative in general; on whole
    numbers below 2^53 it is exact. The lemmas follow the bit-level
    specification [SpecFloat] of the primitive operations. *)

Lemma shl_add p a b : shl (shl p a) b = shl p (b + a).
Proof. unfold shl. symmetry. apply Nat.iter_add. Qed.

Lemma iter_xO p k : Pos.iter xO p k = shl p (Pos.to_nat k).
Proof. unfold shl. apply Pos2Nat.inj_iter. Qed.

Lemma digits_shl p n :
  Zpos (digits2_pos (shl p n)) = Zpos (digits2_pos p) + Z.of_nat n.
Proof.
  induction n as [ | n IH].
  - cbn. lia.
  - change (shl p (S n)) with (xO (shl p n)). cbn [digits2_pos]. lia.
Qed.

Lemma shl_plus p q n : shl (p + q) n = (shl p n + shl q n)%positive.
Proof.
  induction n as [ | n IH]; [reflexivity | ].
  change (shl ?x (S n)) with (xO (shl x n)). rewrite IH. reflexivity.
Qed.

Lemma iter_pos_nat {A} (f : A -> A) p x :
  iter_pos f p x = Nat.iter (Pos.to_nat p) f x.
Proof.
  revert x. induction p as [p IH | p IH | ]; intros x; cbn [iter_pos].
  - rewrite !IH, Pos2Nat.inj_xI.
    replace (S (2 * Pos.to_nat p))%nat with (Pos.to_nat p + (Pos.to_nat p + 1))%nat by lia.
    rewrite !Nat.iter_add. reflexivity.
  - rewrite !IH, Pos2Nat.inj_xO.
    replace (2 * Pos.to_nat p)%nat with (Pos.to_nat p + Pos.to_nat p)%nat by lia.
    rewrite Nat.iter_add. reflexivity.
  - reflexivity.
Qed.

Lemma shr_1_shl q n : Nat.iter n shr_1 (exact (shl q n)) = exact q.
Proof.
  induction n as [ | n IH]; [reflexivity | ].
  rewrite Nat.iter_succ_r. change (shl q (S n)) with (xO (shl q n)).
  exact IH.
Qed.

Lemma shl_align_lt m e e' :
  e' < e -> shl_align m e e' = (shl m (Z.to_nat (e - e')), e').
Proof.
  intros Hlt. unfold shl_align.
  destruct (e' - e) as [ | d | d] eqn:Hd; try lia.
  rewrite iter_xO. repeat f_equal. lia.
Qed.

Lemma shl_align_ge m e e' : e <= e' -> shl_align m e e' = (m, e).
Proof.
  intros Hle. unfold shl_align.
  destruct (e' - e) as [ | d | d] eqn:Hd; try lia; reflexivity.
Qed.

Lemma shr_pos mrs e n :
  0 < n -> shr mrs e n = (Nat.iter (Z.to_nat n) shr_1 mrs, e + n).
Proof.
  intros Hn. destruct n as [ | p | p]; try lia.
  cbn [shr]. rewrite iter_pos_nat. reflexivity.
Qed.

Lemma fexp_small d : 1 <= d -> fexp prec emax d = d - 53.
Proof. intros Hd. unfold fexp, SpecFloat.emin, prec, emax. lia. Qed.

(** A mantissa of 53 digits followed by [n] zero bits: the zeros are shifted
    out and nothing is rounded. *)
Lemma binary_round_aux_shift q n e :
  Zpos (digits2_pos q) = 53 -> -53 < e + Z.of_nat n <= 0 ->
  binary_round_aux prec emax false (Zpos (shl q n)) e loc_Exact
  = S754_finite false q (e + Z.of_nat n).
Proof.
  intros Hd He. unfold binary_round_aux, shr_fexp.
  cbn [Zdigits2 shr_record_of_loc]. rewrite digits_shl, Hd, fexp_small by lia.
  replace (53 + Z.of_nat n + e - 53 - e) with (Z.of_nat n) by lia.
  assert (Hshr : shr {| shr_m := Zpos (shl q n); shr_r := false; shr_s := false |}
                   e (Z.of_nat n)
                 = (exact q, e + Z.of_nat n)).
  { destruct n as [ | n].
    - cbn. f_equal. lia.
    - rewrite shr_pos by lia. rewrite Nat2Z.id.
      change {| shr_m := Zpos ?m; shr_r := false; shr_s := false |} with (exact m).
      rewrite shr_1_shl. reflexivity. }
  rewrite Hshr.
  cbn [exact shr_m loc_of_shr_record round_nearest_even Zdigits2 shr_record_of_loc].
  rewrite Hd, fexp_small by lia.
  replace (53 + (e + Z.of_nat n) - 53 - (e + Z.of_nat n)) with 0 by lia.
  cbn [shr shr_m].
  destruct (Z.leb_spec (e + Z.of_nat n) (emax - prec)) as [ | Hgt]; [reflexivity | ].
  unfold emax, prec in Hgt. lia.
Qed.

(** Rounding the integer [z], given as [z * 2^k] with exponent [-k]. *)
Lemma binary_round_whole z k :
  let d := Zpos (digits2_pos z) in
  d <= 53 ->
  binary_round prec emax false (shl z k) (- Z.of_nat k)
  = S754_finite false (shl z (Z.to_nat (53 - d))) (d - 53).
Proof.
  intros d Hd. unfold binary_round.
  rewrite digits_shl. fold d.
  replace (d + Z.of_nat k + - Z.of_nat k) with d by lia.
  rewrite fexp_small by (unfold d; lia).
  assert (Hdigits : Zpos (digits2_pos (shl z (Z.to_nat (53 - d)))) = 53)
    by (rewrite digits_shl; fold d; lia).
  destruct (Z.lt_ge_cases (d - 53) (- Z.of_nat k)) as [Hlt | Hge].
  - rewrite shl_align_lt by exact Hlt. rewrite shl_add.
    replace (Z.to_nat (- Z.of_nat k - (d - 53)) + k)%nat with (Z.to_nat (53 - d)) by lia.
    change (shl z (Z.to_nat (53 - d))) with (shl (shl z (Z.to_nat (53 - d))) 0) at 1.
    rewrite binary_round_aux_shift; [ | exact Hdigits | unfold d in *; lia].
    f_equal. lia.
  - rewrite shl_align_ge by exact Hge.
    replace k with (Z.to_nat (Z.of_nat k - (53 - d)) + Z.to_nat (53 - d))%nat at 1 by lia.
    rewrite <- shl_add.
    rewrite binary_round_aux_shift; [ | exact Hdigits | unfold d in *; lia].
    f_equal. lia.
Qed.

Lemma whole_pos (z : positive) :
  Zpos (digits2_pos z) <= 53 ->
  whole (Zpos z)
  = S754_finite false (shl z (Z.to_nat (53 - Zpos (digits2_pos z))))
      (Zpos (digits2_pos z) - 53).
Proof.
  intros Hd. unfold whole. cbn [binary_normalize].
  exact (binary_round_whole z 0 Hd).
Qed.

Lemma digits_bound p n :
  Zpos p < 2 ^ Z.of_nat n -> Zpos (digits2_pos p) <= Z.of_nat n.
Proof.
  revert n. induction p as [p IH | p IH | ]; intros n Hlt.
  - destruct n as [ | n]; [cbn in Hlt; lia | ].
    rewrite Nat2Z.inj_succ, Z.pow_succ_r in Hlt by lia.
    specialize (IH n). cbn [digits2_pos]. lia.
  - destruct n as [ | n]; [cbn in Hlt; lia | ].
    rewrite Nat2Z.inj_succ, Z.pow_succ_r in Hlt by lia.
    specialize (IH n). cbn [digits2_pos]. lia.
  - destruct n as [ | n]; [cbn in Hlt; lia | ]. cbn [digits2_pos]. lia.
Qed.

Lemma digits_53 p : Zpos p < 2 ^ 53 -> Zpos (digits2_pos p) <= 53.
Proof. exact (digits_bound p 53). Qed.

Lemma whole_valid z : 0 <= z < 2 ^ 53 -> valid_binary (whole z) = true.
Proof.
  intros [Hz Hlt]. destruct z as [ | p | p]; [reflexivity | | lia].
  pose proof (digits_53 p Hlt) as Hd.
  rewrite whole_pos by exact Hd.
  unfold valid_binary, bounded, canonical_mantissa.
  rewrite digits_shl, fexp_small by lia.
  apply andb_true_intro. split.
  - apply Z.eqb_eq. lia.
  - apply Z.leb_le. unfold emax, prec. lia.
Qed.

Lemma fst_shl_align m e e' :
  e' <= e -> fst (shl_align m e e') = shl m (Z.to_nat (e - e')).
Proof.
  intros Hle. destruct (Z.eq_dec e' e) as [Heq | Hne].
  - rewrite shl_align_ge by lia. subst e'. rewrite Z.sub_diag. reflexivity.
  - rewrite shl_align_lt by lia. reflexivity.
Qed.

(** Adding two whole numbers whose sum is below 2^53 rounds nothing. *)
Lemma whole_add x y :
  0 <= x -> 0 <= y -> x + y < 2 ^ 53 ->
  SF64add (whole x) (whole y) = whole (x + y).
Proof.
  intros Hx Hy Hsum.
  destruct x as [ | p | p]; [ | | lia].
  - destruct y as [ | q | q]; [reflexivity | | lia].
    cbn [Z.add]. rewrite whole_pos by (apply digits_53; lia). reflexivity.
  - destruct y as [ | q | q]; [ | | lia].
    + rewrite Z.add_0_r. rewrite whole_pos by (apply digits_53; lia). reflexivity.
    + pose proof (digits_53 p ltac:(lia)) as Hp.
      pose proof (digits_53 q ltac:(lia)) as Hq.
      pose proof (digits_53 (p + q) ltac:(lia)) as Hpq.
      rewrite (whole_pos p Hp), (whole_pos q Hq).
      change (Zpos p + Zpos q) with (Zpos (p + q)).
      rewrite (whole_pos (p + q) Hpq).
      unfold SF64add, SFadd.
      set (dp := Zpos (digits2_pos p)) in *.
      set (dq := Zpos (digits2_pos q)) in *.
      set (ez := Z.min (dp - 53) (dq - 53)).
      rewrite !fst_shl_align by lia. rewrite !shl_add.
      cbn [cond_Zopp].
      replace (Z.to_nat (dp - 53 - ez) + Z.to_nat (53 - dp))%nat
        with (Z.to_nat (- ez)) by lia.
      replace (Z.to_nat (dq - 53 - ez) + Z.to_nat (53 - dq))%nat
        with (Z.to_nat (- ez)) by lia.
      change (Zpos ?a + Zpos ?b) with (Zpos (a + b)).
      rewrite <- shl_plus. cbn [binary_normalize].
      replace ez with (- Z.of_nat (Z.to_nat (- ez))) at 2 by lia.
      exact (binary_round_whole (p + q) (Z.to_nat (- ez)) Hpq).
Qed.

Lemma Prim2SF_of_Z z : 0 <= z < 2 ^ 53 -> Prim2SF (Js.of_Z z) = whole z.
Proof. intros Hz. apply Prim2SF_SF2Prim, whole_valid, Hz. Qed.

Lemma of_Z_add x y :
  0 <= x -> 0 <= y -> x + y < 2 ^ 53 ->
  (Js.of_Z x + Js.of_Z y)%float = Js.of_Z (x + y).
Proof.
  intros Hx Hy Hsum. apply Prim2SF_inj.
  rewrite add_spec, !Prim2SF_of_Z by lia.
  apply whole_add; assumption.
Qed.

(** ** Totals over adjacent ranges *)

Lemma of_Z_truthy n : 0 < n < 2 ^ 53 -> Js.truthy (Js.Num (Js.of_Z n)) = true.
Proof.
  intros Hn. cbn [Js.truthy]. unfold is_zero, is_nan.
  rewrite !eqb_spec, Prim2SF_of_Z by lia.
  destruct n as [ | p | p]; try lia.
  rewrite whole_pos by (apply digits_53; lia).
  unfold SFeqb, SFcompare. rewrite Z.compare_refl, Pos.compare_cont_refl.
  reflexivity.
Qed.

Lemma contribution_whole v n :
  whole_calories v n -> n < 2 ^ 53 -> contribution v = Js.of_Z n /\ 0 <= n.
Proof.
  intros Hwhole Hlt. destruct Hwhole as [ | | n Hn].
  - split; [reflexivity | lia].
  - split; [reflexivity | lia].
  - split; [ | exact Hn].
    destruct (Z.eq_dec n 0) as [Hz | Hnz].
    + subst n. reflexivity.
    + unfold contribution, Js.logical_or. rewrite of_Z_truthy by lia. reflexivity.
Qed.

Lemma sum_nonneg cs ns : Forall2 whole_calories cs ns -> 0 <= Zsum ns.
Proof.
  induction 1 as [ | c n cs ns Hc _ IH]; unfold Zsum in *; cbn; [lia | ].
  destruct Hc; lia.
Qed.

Lemma total_whole cs ns acc :
  Forall2 whole_calories cs ns -> 0 <= acc -> acc + Zsum ns < 2 ^ 53 ->
  fold_left (fun s v => (s + contribution v)%float) cs (Js.of_Z acc)
  = Js.of_Z (acc + Zsum ns).
Proof.
  intros Hall. revert acc.
  induction Hall as [ | c n cs ns Hc Hrest IH]; intros acc Hacc Hlt.
  - cbn. rewrite Z.add_0_r. reflexivity.
  - pose proof (sum_nonneg _ _ Hrest) as Hns.
    change (Zsum (n :: ns)) with (n + Zsum ns) in *. cbn [fold_left].
    destruct (contribution_whole c n Hc ltac:(lia)) as [Hcontrib Hn].
    rewrite Hcontrib, of_Z_add by lia.
    rewrite IH by lia. f_equal. lia.
Qed.

Lemma in_range_split userId a b c r :
  a <= b < c ->
  Store.in_range userId a c r = true ->
  (Store.in_range userId a b r = true /\ Store.in_range userId (b + 1) c r = false)
  \/ (Store.in_range userId a b r = false /\ Store.in_range userId (b + 1) c r = true).
Proof.
  unfold Store.in_range. intros Habc Hin.
  destruct (FoodLog.user_id r =? userId)%string; [ | discriminate Hin].
  cbn [andb] in *. apply andb_prop in Hin. destruct Hin as [Ha Hc].
  rewrite Ha, Hc.
  destruct (Z.leb_spec (FoodLog.date r) b) as [Hle | Hgt].
  - left. split; [reflexivity | ].
    destruct (Z.leb_spec (b + 1) (FoodLog.date r)); [lia | reflexivity].
  - right. split; [reflexivity | ].
    destruct (Z.leb_spec (b + 1) (FoodLog.date r)); [reflexivity | lia].
Qed.

Lemma in_range_outside userId a b c r :
  a <= b < c ->
  Store.in_range userId a c r = false ->
  Store.in_range userId a b r = false /\ Store.in_range userId (b + 1) c r = false.
Proof.
  unfold Store.in_range. intros Habc Hout.
  destruct (FoodLog.user_id r =? userId)%string; [ | split; reflexivity].
  cbn [andb] in *.
  destruct (Z.leb_spec a (FoodLog.date r)), (Z.leb_spec (FoodLog.date r) c),
    (Z.leb_spec (FoodLog.date r) b), (Z.leb_spec (b + 1) (FoodLog.date r));
    cbn in *; try discriminate; try lia; split; reflexivity.
Qed.

(** The whole numbers of a range are those of its two halves. *)
Lemma whole_calories_split userId a b c logs ns :
  a <= b < c ->
  Forall2 whole_calories
    (map FoodLog.calories (filter (Store.in_range userId a c) logs)) ns ->
  exists ns1 ns2,
    Forall2 whole_calories
      (map FoodLog.calories (filter (Store.in_range userId a b) logs)) ns1
    /\ Forall2 whole_calories
         (map FoodLog.calories (filter (Store.in_range userId (b + 1) c) logs)) ns2
    /\ Zsum ns1 + Zsum ns2 = Zsum ns.
Proof.
  intros Habc. revert ns.
  induction logs as [ | r logs IH]; intros ns Hall; cbn in *.
  - inversion Hall; subst. exists [], []. repeat split; constructor.
  - destruct (Store.in_range userId a c r) eqn:Hin.
    + cbn in Hall. inversion Hall as [ | v n vs ns' Hr Hrest]; subst.
      destruct (IH ns' Hrest) as (ns1 & ns2 & H1 & H2 & Hsum).
      destruct (in_range_split userId a b c r Habc Hin) as [[Hab Hbc] | [Hab Hbc]];
        rewrite Hab, Hbc.
      * exists (n :: ns1), ns2. cbn [map].
        change (Zsum (n :: ns1)) with (n + Zsum ns1).
        change (Zsum (n :: ns')) with (n + Zsum ns').
        repeat split; [constructor | | lia]; assumption.
      * exists ns1, (n :: ns2). cbn [map].
        change (Zsum (n :: ns2)) with (n + Zsum ns2).
        change (Zsum (n :: ns')) with (n + Zsum ns').
        repeat split; [ | constructor | lia]; assumption.
    + destruct (in_range_outside userId a b c r Habc Hin) as [Hab Hbc].
      rewrite Hab, Hbc. exact (IH ns Hall).
Qed.

(** C5, as stated, fails: binary64 addition rounds. With 52.1 calories on one
    day and 89.4 and 110.2 on the next, the totals of the two days are 52.1
    and 199.60000000000002, which add up to 251.70000000000002, and the
    total over both days is 251.7. *)
Lemma getTotalCaloriesInRange_not_additive :
  fst (FoodLogs.getTotalCaloriesInRange "u1" 19000 19000 with_decimal_calories)
  = Returns 52.1%float
  /\ fst (FoodLogs.getTotalCaloriesInRange "u1" (19000 + 1) 19001 with_decimal_calories)
     = Returns 199.60000000000002%float
  /\ fst (FoodLogs.getTotalCaloriesInRange "u1" 19000 19001 with_decimal_calories)
     = Returns 251.7%float
  /\ (52.1 + 199.60000000000002)%float <> 251.7%float
  /\ ~ additive_at "u1" 19000 19000 19001 with_decimal_calories.
Proof.
  assert (Hne : (52.1 + 199.60000000000002)%float <> 251.7%float).
  { intros Hsum.
    assert (E := f_equal (fun x => PrimFloat.eqb x 251.7%float) Hsum).
    vm_compute in E. discriminate E. }
  repeat match goal with |- _ /\ _ => split end;
    [reflexivity | reflexivity | reflexivity | exact Hne | ].
  intros (t1 & t2 & t & H1 & H2 & H3 & Hsum).
  vm_compute in H1, H2, H3.
  injection H1 as <-. injection H2 as <-. injection H3 as <-.
  exact (Hne Hsum).
Qed.

(** C5, amended: for [a <= b < c] and a store that answers, when every
    calories value selected over [a, c] is missing or a whole number that is
    not negative, and these numbers add up to less than 2^53, the total
    over [a, b] plus the total over [b + 1, c] is the total over [a, c]. *)
Theorem getTotalCaloriesInRange_additive_whole :
  forall (userId : string) (a b c : Z) (w : Store.world) (ns : list Z),
    a <= b < c ->
    Store.next_fault w = Store.Healthy ->
    Forall2 whole_calories (calories_in_range userId a c w) ns ->
    Zsum ns < 2 ^ 53 ->
    additive_at userId a b c w.
Proof.
  intros userId a b c w ns Habc Hhealthy Hwhole Hbound.
  destruct (whole_calories_split userId a b c _ ns Habc Hwhole)
    as (ns1 & ns2 & H1 & H2 & Hsum).
  pose proof (sum_nonneg _ _ H1) as Hpos1.
  pose proof (sum_nonneg _ _ H2) as Hpos2.
  exists (Js.of_Z (Zsum ns1)), (Js.of_Z (Zsum ns2)), (Js.of_Z (Zsum ns)).
  rewrite !(getTotalCaloriesInRange_healthy _ _ _ _ Hhealthy).
  change 0%float with (Js.of_Z 0).
  unfold calories_in_range in *.
  rewrite (total_whole _ ns1 0 H1), (total_whole _ ns2 0 H2),
    (total_whole _ ns 0 Hwhole) by lia.
  repeat split.
  rewrite of_Z_add by lia. f_equal. exact Hsum.
Qed.

Lemma whole_literal (f : float) (n : Z) :
  0 <= n -> Js.of_Z n = f -> whole_calories (Js.Num f) n.
Proof. intros Hn <-. constructor. exact Hn. Qed.

Lemma getTotalCaloriesInRange_additive_whole_witness :
  additive_at "u1" 19000 19000 19001 with_whole_calories.
Proof.
  apply (getTotalCaloriesInRange_additive_whole "u1" 19000 19000 19001
           with_whole_calories [300; 150; 0; 520]).
  - lia.
  - reflexivity.
  - repeat first [ apply Forall2_cons | apply Forall2_nil ].
    + apply whole_literal; [lia | reflexivity].
    + apply whole_literal; [lia | reflexivity].
    + apply whole_null.
    + apply whole_literal; [lia | reflexivity].
  - reflexivity.
Defined.

(** * Further properties of the code *)

(** ** The middleware on a token that is present *)

Lemma bearer_token_present (t : string) :
  Auth.bearer_token ("Bearer " ++ t) = Some t.
Proof.
  unfold Auth.bearer_token. destruct t; reflexivity.
Qed.

Lemma bearer_token_inv (h t : string) :
  Auth.bearer_token h = Some t -> h = "Bearer " ++ t.
Proof.
  unfold Auth.bearer_token. intros H.
  destruct (String.prefix "Bearer " h) eqn:Hprefix; [ | discriminate H].
  injection H as <-.
  repeat (destruct h as [ | ? h]; [discriminate Hprefix | ];
          cbn [String.prefix] in Hprefix;
          match type of Hprefix with
          | (if ?d then _ else _) = true =>
              destruct d as [<- | ]; [ | discriminate Hprefix]
          end).
  reflexivity.
Qed.

Lemma requireAuth_with_token {identity} (env : Auth.environment identity) req t :
  Auth.authorization req = Some ("Bearer " ++ t) -> t <> "" ->
  Auth.requireAuth env req = Auth.verify_and_continue identity env t req.
Proof.
  intros Hheader Ht. unfold Auth.requireAuth. rewrite Hheader.
  cbn [Auth.header_or_empty]. rewrite bearer_token_present.
  apply String.eqb_neq in Ht. rewrite Ht. reflexivity.
Qed.

(** X1: a request with [Authorization: Bearer t], [t] not empty, whose token
    the identity provider accepts: [verifyIdToken] is called once, with
    exactly [t]; the decoded identity is attached to the request; [next] is
    called once and no response is sent. *)
Theorem requireAuth_valid_token :
  forall identity (env : Auth.environment identity) (req : Auth.request identity)
         (t : string) (decoded : identity),
    Auth.authorization req = Some ("Bearer " ++ t) ->
    t <> "" ->
    Auth.verifyIdToken identity env t = Returns decoded ->
    Auth.next_throws identity env = None ->
    fst (Auth.requireAuth env req) = Returns tt
    /\ added_events env req [Auth.VerifyIdToken t; Auth.Next]
    /\ Auth.firebaseUser (snd (Auth.requireAuth env req)) = Some decoded.
Proof.
  intros identity env req t decoded Hheader Ht Hverify Hnext.
  unfold added_events. rewrite (requireAuth_with_token env req t Hheader Ht).
  unfold Auth.verify_and_continue, try_catch, bind, Auth.await_verifyIdToken,
    Auth.call_next, bind.
  cbn [Auth.emit fst snd]. rewrite Hverify. cbn. rewrite Hnext. cbn.
  rewrite <- app_assoc. repeat split.
Qed.

Lemma requireAuth_valid_token_witness :
  fst (Auth.requireAuth accept_all (request_with (Some "Bearer abc.def"))) = Returns tt
  /\ added_events accept_all (request_with (Some "Bearer abc.def"))
       [Auth.VerifyIdToken "abc.def"; Auth.Next]
  /\ Auth.firebaseUser
       (snd (Auth.requireAuth accept_all (request_with (Some "Bearer abc.def"))))
     = Some "abc.def".
Proof.
  apply (requireAuth_valid_token string accept_all
           (request_with (Some "Bearer abc.def")) "abc.def" "abc.def").
  - reflexivity.
  - discriminate.
  - reflexivity.
  - reflexivity.
Defined.

(** X2: a request with [Authorization: Bearer t], [t] not empty, whose token
    the identity provider refuses: the error is logged, the response is 401
    "Unauthorized: invalid token", [next] is not called and no identity is
    attached. *)
Theorem requireAuth_invalid_token :
  forall identity (env : Auth.environment identity) (req : Auth.request identity)
         (t : string) (e : js_error),
    Auth.authorization req = Some ("Bearer " ++ t) ->
    t <> "" ->
    Auth.verifyIdToken identity env t = Throws e ->
    fst (Auth.requireAuth env req) = Returns tt
    /\ added_events env req
         [Auth.VerifyIdToken t;
          Auth.ConsoleError "Error verifyIdToken:";
          Auth.Respond 401 "Unauthorized: invalid token"]
    /\ Auth.firebaseUser (snd (Auth.requireAuth env req)) = Auth.firebaseUser req.
Proof.
  intros identity env req t e Hheader Ht Hverify.
  unfold added_events. rewrite (requireAuth_with_token env req t Hheader Ht).
  unfold Auth.verify_and_continue, try_catch, bind, Auth.await_verifyIdToken, bind.
  cbn [Auth.emit fst snd]. rewrite Hverify. cbn.
  rewrite <- !app_assoc. repeat split.
Qed.

Lemma requireAuth_invalid_token_witness :
  fst (Auth.requireAuth refuse_all (request_with (Some "Bearer expired"))) = Returns tt
  /\ added_events refuse_all (request_with (Some "Bearer expired"))
       [Auth.VerifyIdToken "expired";
        Auth.ConsoleError "Error verifyIdToken:";
        Auth.Respond 401 "Unauthorized: invalid token"]
  /\ Auth.firebaseUser
       (snd (Auth.requireAuth refuse_all (request_with (Some "Bearer expired"))))
     = None.
Proof.
  apply (requireAuth_invalid_token string refuse_all
           (request_with (Some "Bearer expired")) "expired"
           (RemoteError "auth/argument-error")).
  - reflexivity.
  - discriminate.
  - reflexivity.
Defined.

(** X3: [next()] is called inside the [try] block: when the token is
    accepted and [next] throws, the identity stays attached, and the throw
    is caught, logged and answered 401 "Unauthorized: invalid token". *)
Theorem requireAuth_next_throws :
  forall identity (env : Auth.environment identity) (req : Auth.request identity)
         (t : string) (decoded : identity) (e : js_error),
    Auth.authorization req = Some ("Bearer " ++ t) ->
    t <> "" ->
    Auth.verifyIdToken identity env t = Returns decoded ->
    Auth.next_throws identity env = Some e ->
    fst (Auth.requireAuth env req) = Returns tt
    /\ added_events env req
         [Auth.VerifyIdToken t;
          Auth.Next;
          Auth.ConsoleError "Error verifyIdToken:";
          Auth.Respond 401 "Unauthorized: invalid token"]
    /\ Auth.firebaseUser (snd (Auth.requireAuth env req)) = Some decoded.
Proof.
  intros identity env req t decoded e Hheader Ht Hverify Hnext.
  unfold added_events. rewrite (requireAuth_with_token env req t Hheader Ht).
  unfold Auth.verify_and_continue, try_catch, bind, Auth.await_verifyIdToken,
    Auth.call_next, bind.
  cbn [Auth.emit fst snd]. rewrite Hverify. cbn. rewrite Hnext. cbn.
  rewrite <- !app_assoc. repeat split.
Qed.

Lemma requireAuth_next_throws_witness :
  fst (Auth.requireAuth failing_next (request_with (Some "Bearer abc"))) = Returns tt
  /\ added_events failing_next (request_with (Some "Bearer abc"))
       [Auth.VerifyIdToken "abc";
        Auth.Next;
        Auth.ConsoleError "Error verifyIdToken:";
        Auth.Respond 401 "Unauthorized: invalid token"]
  /\ Auth.firebaseUser
       (snd (Auth.requireAuth failing_next (request_with (Some "Bearer abc"))))
     = Some "abc".
Proof.
  apply (requireAuth_next_throws string failing_next
           (request_with (Some "Bearer abc")) "abc" "abc"
           (JsError "handler failed")).
  - reflexivity.
  - discriminate.
  - reflexivity.
  - reflexivity.
Defined.

Lemma header_of_token {identity} (req : Auth.request identity) t :
  Auth.bearer_token (Auth.header_or_empty (Auth.authorization req)) = Some t ->
  Auth.authorization req = Some ("Bearer " ++ t).
Proof.
  intros Htoken. apply bearer_token_inv in Htoken.
  destruct (Auth.authorization req) as [h | ]; cbn in Htoken.
  - rewrite Htoken. reflexivity.
  - discriminate Htoken.
Qed.

(** X4: whatever the request, the identity provider and the next handler do,
    [requireAuth] does not throw and sends at most one response. If it
    calls [next], the header was [Bearer t] with a token the identity
    provider accepted, and the identity attached to the request is the
    decoded one; if it does not call [next], it has answered 401. *)
Theorem requireAuth_guards_next :
  forall identity (env : Auth.environment identity) (req : Auth.request identity),
  exists new,
    fst (Auth.requireAuth env req) = Returns tt
    /\ added_events env req new
    /\ (List.length (filter is_response new) <= 1)%nat
    /\ (In Auth.Next new ->
        exists t decoded,
          Auth.authorization req = Some ("Bearer " ++ t)
          /\ t <> ""
          /\ Auth.verifyIdToken identity env t = Returns decoded
          /\ Auth.firebaseUser (snd (Auth.requireAuth env req)) = Some decoded)
    /\ (~ In Auth.Next new -> exists message, In (Auth.Respond 401 message) new).
Proof.
  intros identity env req. unfold added_events.
  destruct (Auth.bearer_token (Auth.header_or_empty (Auth.authorization req)))
    as [t | ] eqn:Htoken.
  - pose proof (header_of_token req t Htoken) as Hheader.
    destruct (String.eqb_spec t "") as [Hempty | Hfull].
    + exists [Auth.Respond 401 "Unauthorized: missing token"].
      unfold Auth.requireAuth. rewrite Htoken. subst t. cbn.
      repeat split; [lia | | ].
      * intros [Hin | []]. discriminate Hin.
      * intros _. eexists. left. reflexivity.
    + rewrite (requireAuth_with_token env req t Hheader Hfull).
      unfold Auth.verify_and_continue, try_catch, bind, Auth.await_verifyIdToken,
        Auth.call_next, bind.
      cbn [Auth.emit fst snd].
      destruct (Auth.verifyIdToken identity env t) as [decoded | e] eqn:Hverify.
      * destruct (Auth.next_throws identity env) as [e | ] eqn:Hnext; cbn.
        -- exists [Auth.VerifyIdToken t; Auth.Next;
                   Auth.ConsoleError "Error verifyIdToken:";
                   Auth.Respond 401 "Unauthorized: invalid token"].
           rewrite <- !app_assoc. cbn. repeat split; [lia | | ].
           ++ intros _. exists t, decoded. repeat split; assumption.
           ++ intros _. eexists. do 3 right. left. reflexivity.
        -- exists [Auth.VerifyIdToken t; Auth.Next].
           rewrite <- !app_assoc. cbn. repeat split; [lia | | ].
           ++ intros _. exists t, decoded. repeat split; assumption.
           ++ intros Hnot. exfalso. apply Hnot. right. left. reflexivity.
      * cbn.
        exists [Auth.VerifyIdToken t;
                Auth.ConsoleError "Error verifyIdToken:";
                Auth.Respond 401 "Unauthorized: invalid token"].
        rewrite <- !app_assoc. cbn. repeat split; [lia | | ].
        -- intros [Hin | [Hin | [Hin | []]]]; discriminate Hin.
        -- intros _. eexists. do 2 right. left. reflexivity.
  - exists [Auth.Respond 401 "Unauthorized: missing token"].
    unfold Auth.requireAuth. rewrite Htoken. cbn.
    repeat split; [lia | | ].
    + intros [Hin | []]. discriminate Hin.
    + intros _. eexists. left. reflexivity.
Qed.

(** ** Adding and deleting food logs *)

Lemma getFoodLogsByDate_healthy userId date w :
  Store.next_fault w = Store.Healthy ->
  fst (FoodLogs.getFoodLogsByDate userId date w)
  = Returns (Store.order_by_logged_at
               (filter (Store.on_date userId date) (Store.food_logs w))).
Proof.
  intros Hhealthy. unfold FoodLogs.getFoodLogsByDate, bind.
  rewrite (call_healthy _ _ _ _ Hhealthy). reflexivity.
Qed.

Lemma addFoodLog_healthy now userId date foodName calories foodId w :
  Store.next_fault w = Store.Healthy ->
  FoodLogs.addFoodLog now userId date foodName calories foodId w
  = (Returns (Some (new_log now userId date foodName calories foodId w)),
     Store.with_food_logs
       (Store.food_logs w ++ [new_log now userId date foodName calories foodId w])
       (Store.record (Store.Query "food_logs" Store.Insert) (Store.consume_fault w))).
Proof.
  intros Hhealthy. unfold FoodLogs.addFoodLog, FoodLogs.insert_food_log, bind.
  rewrite (call_healthy _ _ _ _ Hhealthy). reflexivity.
Qed.

Lemma deleteFoodLog_healthy id w :
  Store.next_fault w = Store.Healthy ->
  FoodLogs.deleteFoodLog id w
  = (Returns tt,
     Store.with_food_logs
       (filter (fun l => negb (FoodLog.id l =? id)) (Store.food_logs w))
       (Store.record (Store.Query "food_logs" Store.Delete) (Store.consume_fault w))).
Proof.
  intros Hhealthy. unfold FoodLogs.deleteFoodLog, bind.
  rewrite (call_healthy _ _ _ _ Hhealthy). reflexivity.
Qed.

Lemma healthy_after_call n w table v logs :
  healthy (S n) w ->
  healthy n (Store.with_food_logs logs
               (Store.record (Store.Query table v) (Store.consume_fault w))).
Proof. intros H i Hi. exact (healthy_consume n w H i Hi). Qed.

Lemma id_below_fresh (ls : list FoodLog.t) (l : FoodLog.t) :
  In l ls -> FoodLog.id l < Store.fresh_log_id ls.
Proof.
  unfold Store.fresh_log_id. induction ls as [ | x ls IH]; intros Hin; [destruct Hin | ].
  cbn [map fold_right]. destruct Hin as [-> | Hin]; [lia | ].
  specialize (IH Hin). lia.
Qed.

Lemma filter_all {A} (f : A -> bool) (l : list A) :
  (forall x, In x l -> f x = true) -> filter f l = l.
Proof.
  induction l as [ | a l IH]; intros Hall; [reflexivity | ].
  cbn. rewrite (Hall a (or_introl eq_refl)). f_equal. apply IH.
  intros x Hx. apply Hall. right. exact Hx.
Qed.

(** X5: on a store that answers, [addFoodLog] returns the created row, which
    carries the arguments (the calories as JSON carries them), an id no
    earlier row has and the store's timestamp; [getFoodLogsByDate] for that
    user and day then returns the earlier rows of the day together with the
    new row. *)
Theorem addFoodLog_then_listed :
  forall (now : Z) (userId : string) (date : Z) (foodName : string)
         (calories : Js.value) (foodId : option Z) (w : Store.world),
    healthy 2 w ->
    let out := FoodLogs.addFoodLog now userId date foodName calories foodId w in
    exists row rows,
      fst out = Returns (Some row)
      /\ FoodLog.user_id row = userId
      /\ FoodLog.date row = date
      /\ FoodLog.food_name_custom row = foodName
      /\ FoodLog.calories row = Store.json_value calories
      /\ FoodLog.food_id row = foodId
      /\ FoodLog.logged_at row = now
      /\ (forall l, In l (Store.food_logs w) -> FoodLog.id l <> FoodLog.id row)
      /\ fst (FoodLogs.getFoodLogsByDate userId date (snd out)) = Returns rows
      /\ Permutation rows
           (row :: filter (Store.on_date userId date) (Store.food_logs w)).
Proof.
  intros now userId date foodName calories foodId w Hhealthy out.
  subst out. rewrite (addFoodLog_healthy _ _ _ _ _ _ _ (healthy_next _ _ Hhealthy)).
  cbn [fst snd].
  set (row := new_log now userId date foodName calories foodId w).
  exists row,
    (Store.order_by_logged_at
       (filter (Store.on_date userId date) (Store.food_logs w ++ [row]))).
  repeat match goal with |- _ /\ _ => split end; try reflexivity.
  - intros l Hin Heq. pose proof (id_below_fresh _ _ Hin) as Hlt.
    subst row. unfold new_log in Heq. cbn [FoodLog.id] in Heq. lia.
  - apply getFoodLogsByDate_healthy.
    apply (healthy_next 0). apply healthy_after_call. exact Hhealthy.
  - eapply perm_trans; [apply order_by_logged_at_perm | ].
    rewrite filter_app. cbn [filter].
    replace (Store.on_date userId date row) with true.
    + apply Permutation_sym, Permutation_cons_append.
    + unfold Store.on_date. subst row. cbn.
      rewrite String.eqb_refl, Z.eqb_refl. reflexivity.
Qed.

Lemma addFoodLog_then_listed_witness :
  let out := FoodLogs.addFoodLog 60 "u1" 19000 "bakso" (Js.Num 320) None three_logs in
  exists row rows,
    fst out = Returns (Some row)
    /\ FoodLog.user_id row = "u1"
    /\ FoodLog.date row = 19000
    /\ FoodLog.food_name_custom row = "bakso"
    /\ FoodLog.calories row = Store.json_value (Js.Num 320)
    /\ FoodLog.food_id row = None
    /\ FoodLog.logged_at row = 60
    /\ (forall l, In l (Store.food_logs three_logs) -> FoodLog.id l <> FoodLog.id row)
    /\ fst (FoodLogs.getFoodLogsByDate "u1" 19000 (snd out)) = Returns rows
    /\ Permutation rows
         (row :: filter (Store.on_date "u1" 19000) (Store.food_logs three_logs)).
Proof.
  apply (addFoodLog_then_listed 60 "u1" 19000 "bakso" (Js.Num 320) None three_logs).
  intros i Hi. destruct i as [ | [ | i]]; reflexivity.
Defined.

(** X6: [addFoodLog] touches nothing else: the [users] table and the catalog
    are as before, and [getFoodLogsByDate] for another user or another day
    returns what it returned before. *)
Theorem addFoodLog_leaves_other_days :
  forall (now : Z) (userId : string) (date : Z) (foodName : string)
         (calories : Js.value) (foodId : option Z) (w : Store.world)
         (userId' : string) (date' : Z),
    healthy 2 w ->
    userId' <> userId \/ date' <> date ->
    let out := FoodLogs.addFoodLog now userId date foodName calories foodId w in
    Store.users (snd out) = Store.users w
    /\ Store.makanan (snd out) = Store.makanan w
    /\ fst (FoodLogs.getFoodLogsByDate userId' date' (snd out))
       = fst (FoodLogs.getFoodLogsByDate userId' date' w).
Proof.
  intros now userId date foodName calories foodId w userId' date' Hhealthy Hother out.
  subst out. rewrite (addFoodLog_healthy _ _ _ _ _ _ _ (healthy_next _ _ Hhealthy)).
  cbn [fst snd]. split; [reflexivity | split; [reflexivity | ]].
  rewrite !getFoodLogsByDate_healthy;
    [ | exact (healthy_next _ _ Hhealthy)
      | apply (healthy_next 0), healthy_after_call; exact Hhealthy ].
  cbn [Store.food_logs Store.with_food_logs]. rewrite filter_app. cbn [filter].
  replace (Store.on_date userId' date' _) with false; [rewrite app_nil_r; reflexivity | ].
  unfold Store.on_date, new_log. cbn. symmetry.
  destruct Hother as [Huser | Hdate].
  - apply not_eq_sym, String.eqb_neq in Huser. rewrite Huser. reflexivity.
  - apply not_eq_sym, Z.eqb_neq in Hdate. rewrite Hdate. apply andb_false_r.
Qed.

Lemma addFoodLog_leaves_other_days_witness :
  let out := FoodLogs.addFoodLog 60 "u1" 19000 "bakso" (Js.Num 320) None three_logs in
  Store.users (snd out) = Store.users three_logs
  /\ Store.makanan (snd out) = Store.makanan three_logs
  /\ fst (FoodLogs.getFoodLogsByDate "u2" 19000 (snd out))
     = fst (FoodLogs.getFoodLogsByDate "u2" 19000 three_logs).
Proof.
  apply (addFoodLog_leaves_other_days 60 "u1" 19000 "bakso" (Js.Num 320) None
           three_logs "u2" 19000).
  - intros i Hi. destruct i as [ | [ | i]]; reflexivity.
  - left. discriminate.
Defined.

(** X7: on a store that answers, [deleteFoodLog] returns without an error,
    removes the rows with the id and keeps every other row; when no row has
    the id, the table is left exactly as it was. Users and catalog are not
    touched. *)
Theorem deleteFoodLog_removes_only_id :
  forall (id : Z) (w : Store.world),
    Store.next_fault w = Store.Healthy ->
    let out := FoodLogs.deleteFoodLog id w in
    fst out = Returns tt
    /\ (forall l, In l (Store.food_logs (snd out))
                  <-> In l (Store.food_logs w) /\ FoodLog.id l <> id)
    /\ ((forall l, In l (Store.food_logs w) -> FoodLog.id l <> id) ->
        Store.food_logs (snd out) = Store.food_logs w)
    /\ Store.users (snd out) = Store.users w
    /\ Store.makanan (snd out) = Store.makanan w.
Proof.
  intros id w Hhealthy out. subst out.
  rewrite (deleteFoodLog_healthy id w Hhealthy).
  cbn [fst snd Store.food_logs Store.with_food_logs].
  split; [reflexivity | split; [ | split; [ | split; reflexivity]]].
  - intros l. rewrite filter_In, negb_true_iff, Z.eqb_neq. reflexivity.
  - intros Hnone. apply filter_all. intros l Hin.
    apply negb_true_iff, Z.eqb_neq, Hnone, Hin.
Qed.

Lemma deleteFoodLog_removes_only_id_witness :
  let out := FoodLogs.deleteFoodLog 42 three_logs in
  fst out = Returns tt
  /\ (forall l, In l (Store.food_logs (snd out))
                <-> In l (Store.food_logs three_logs) /\ FoodLog.id l <> 42)
  /\ ((forall l, In l (Store.food_logs three_logs) -> FoodLog.id l <> 42) ->
      Store.food_logs (snd out) = Store.food_logs three_logs)
  /\ Store.users (snd out) = Store.users three_logs
  /\ Store.makanan (snd out) = Store.makanan three_logs.
Proof.
  apply (deleteFoodLog_removes_only_id 42 three_logs). reflexivity.
Defined.

(** X8: deleting the same id twice is deleting it once: the second call
    returns without an error and leaves the table as the first call left
    it. *)
Theorem deleteFoodLog_twice :
  forall (id : Z) (w : Store.world),
    healthy 2 w ->
    let once := FoodLogs.deleteFoodLog id w in
    let twice := FoodLogs.deleteFoodLog id (snd once) in
    fst twice = Returns tt
    /\ Store.food_logs (snd twice) = Store.food_logs (snd once).
Proof.
  intros id w Hhealthy once twice. subst once twice.
  rewrite (deleteFoodLog_healthy id w (healthy_next _ _ Hhealthy)). cbn [snd].
  rewrite deleteFoodLog_healthy
    by (apply (healthy_next 0), healthy_after_call; exact Hhealthy).
  cbn [fst snd Store.food_logs Store.with_food_logs Store.record Store.consume_fault].
  split; [reflexivity | ].
  apply filter_all. intros l Hin. apply filter_In in Hin. exact (proj2 Hin).
Qed.

Lemma deleteFoodLog_twice_witness :
  let once := FoodLogs.deleteFoodLog 2 three_logs in
  let twice := FoodLogs.deleteFoodLog 2 (snd once) in
  fst twice = Returns tt
  /\ Store.food_logs (snd twice) = Store.food_logs (snd once).
Proof.
  apply (deleteFoodLog_twice 2 three_logs).
  intros i Hi. destruct i as [ | [ | i]]; reflexivity.
Defined.

(** X9: deleting the row that [addFoodLog] has just returned gives back the
    table as it was before the row was added. *)
Theorem addFoodLog_then_delete :
  forall (now : Z) (userId : string) (date : Z) (foodName : string)
         (calories : Js.value) (foodId : option Z) (w : Store.world)
         (row : FoodLog.t),
    healthy 2 w ->
    let added := FoodLogs.addFoodLog now userId date foodName calories foodId w in
    fst added = Returns (Some row) ->
    let deleted := FoodLogs.deleteFoodLog (FoodLog.id row) (snd added) in
    fst deleted = Returns tt
    /\ Store.food_logs (snd deleted) = Store.food_logs w.
Proof.
  intros now userId date foodName calories foodId w row Hhealthy added Hrow deleted.
  subst deleted added.
  rewrite (addFoodLog_healthy _ _ _ _ _ _ _ (healthy_next _ _ Hhealthy)) in *.
  cbn [fst snd] in *. injection Hrow as <-.
  rewrite deleteFoodLog_healthy
    by (apply (healthy_next 0), healthy_after_call; exact Hhealthy).
  cbn [fst snd Store.food_logs Store.with_food_logs Store.record Store.consume_fault].
  split; [reflexivity | ].
  rewrite filter_app. cbn [filter new_log FoodLog.id].
  rewrite Z.eqb_refl. cbn [negb]. rewrite app_nil_r.
  apply filter_all. intros l Hin.
  pose proof (id_below_fresh _ _ Hin) as Hlt.
  apply negb_true_iff, Z.eqb_neq. lia.
Qed.

Lemma addFoodLog_then_delete_witness :
  let added := FoodLogs.addFoodLog 60 "u1" 19000 "bakso" (Js.Num 320) None three_logs in
  let deleted := FoodLogs.deleteFoodLog 4 (snd added) in
  fst deleted = Returns tt
  /\ Store.food_logs (snd deleted) = Store.food_logs three_logs.
Proof.
  apply (addFoodLog_then_delete 60 "u1" 19000 "bakso" (Js.Num 320) None three_logs
           (new_log 60 "u1" 19000 "bakso" (Js.Num 320) None three_logs)).
  - intros i Hi. destruct i as [ | [ | i]]; reflexivity.
  - reflexivity.
Defined.

(** ** More on totals of calories *)

(** X10: on a store that answers, [getTotalCaloriesInRange] is 0, and not an
    error, when no row of the user lies in the range; in particular for a
    range whose end is before its start. *)
Theorem getTotalCaloriesInRange_empty :
  forall (userId : string) (startDate endDate : Z) (w : Store.world),
    Store.next_fault w = Store.Healthy ->
    ((forall l, In l (Store.food_logs w) ->
                FoodLog.user_id l <> userId
                \/ FoodLog.date l < startDate \/ endDate < FoodLog.date l) ->
     fst (FoodLogs.getTotalCaloriesInRange userId startDate endDate w)
     = Returns 0%float)
    /\ (endDate < startDate ->
        fst (FoodLogs.getTotalCaloriesInRange userId startDate endDate w)
        = Returns 0%float).
Proof.
  intros userId startDate endDate w Hhealthy.
  assert (Hnone : (forall l, In l (Store.food_logs w) ->
                             FoodLog.user_id l <> userId
                             \/ FoodLog.date l < startDate \/ endDate < FoodLog.date l) ->
                  fst (FoodLogs.getTotalCaloriesInRange userId startDate endDate w)
                  = Returns 0%float).
  { intros Hout. rewrite (getTotalCaloriesInRange_healthy _ _ _ _ Hhealthy).
    unfold calories_in_range. rewrite filter_none; [reflexivity | ].
    intros l Hin. unfold Store.in_range.
    destruct (Hout l Hin) as [Huser | [Hbefore | Hafter]].
    - apply String.eqb_neq in Huser. rewrite Huser. reflexivity.
    - apply Z.leb_gt in Hbefore. rewrite Hbefore. rewrite andb_false_r. reflexivity.
    - apply Z.leb_gt in Hafter. rewrite Hafter. apply andb_false_r. }
  split; [exact Hnone | ].
  intros Hreversed. apply Hnone. intros l _. right. lia.
Qed.

Lemma getTotalCaloriesInRange_empty_witness :
  fst (FoodLogs.getTotalCaloriesInRange "u1" 19005 19001 with_whole_calories)
  = Returns 0%float.
Proof.
  apply (proj2 (getTotalCaloriesInRange_empty "u1" 19005 19001 with_whole_calories
                  eq_refl)).
  lia.
Defined.

(** X11: on a store that answers, when the selected calories are missing or
    whole numbers that are not negative, with a sum below 2^53, the total
    is exactly that sum: no addition has rounded. *)
Theorem getTotalCaloriesInRange_whole_exact :
  forall (userId : string) (startDate endDate : Z) (w : Store.world) (ns : list Z),
    Store.next_fault w = Store.Healthy ->
    Forall2 whole_calories (calories_in_range userId startDate endDate w) ns ->
    Zsum ns < 2 ^ 53 ->
    fst (FoodLogs.getTotalCaloriesInRange userId startDate endDate w)
    = Returns (Js.of_Z (Zsum ns)).
Proof.
  intros userId startDate endDate w ns Hhealthy Hwhole Hbound.
  rewrite (getTotalCaloriesInRange_healthy _ _ _ _ Hhealthy).
  change 0%float with (Js.of_Z 0).
  rewrite (total_whole _ ns 0 Hwhole) by lia. reflexivity.
Qed.

Lemma getTotalCaloriesInRange_whole_exact_witness :
  fst (FoodLogs.getTotalCaloriesInRange "u1" 19000 19001 with_whole_calories)
  = Returns (Js.of_Z (Zsum [300; 150; 0; 520])).
Proof.
  apply (getTotalCaloriesInRange_whole_exact "u1" 19000 19001 with_whole_calories
           [300; 150; 0; 520]).
  - reflexivity.
  - repeat first [ apply Forall2_cons | apply Forall2_nil ].
    + apply whole_literal; [lia | reflexivity].
    + apply whole_literal; [lia | reflexivity].
    + apply whole_null.
    + apply whole_literal; [lia | reflexivity].
  - reflexivity.
Defined.

Lemma filter_perm {A} (f : A -> bool) (l l' : list A) :
  Permutation l l' -> Permutation (filter f l) (filter f l').
Proof.
  induction 1 as [ | x l l' _ IH | x y l | l l' l'' _ IH1 _ IH2]; cbn.
  - apply perm_nil.
  - destruct (f x); [apply perm_skip | ]; exact IH.
  - destruct (f x), (f y); try apply Permutation_refl. apply perm_swap.
  - exact (perm_trans IH1 IH2).
Qed.

Lemma Zsum_perm (ns ns' : list Z) : Permutation ns ns' -> Zsum ns = Zsum ns'.
Proof.
  unfold Zsum.
  induction 1 as [ | x l l' _ IH | x y l | l l' l'' _ IH1 _ IH2]; cbn; lia.
Qed.

(** X12: the range query has no [order] clause. For calories that are
    missing or whole numbers that are not negative, with a sum below 2^53,
    the total does not depend on the order in which the store holds the
    rows. *)
Theorem getTotalCaloriesInRange_order_free :
  forall (userId : string) (startDate endDate : Z) (w w' : Store.world) (ns : list Z),
    Store.next_fault w = Store.Healthy ->
    Store.next_fault w' = Store.Healthy ->
    Permutation (Store.food_logs w) (Store.food_logs w') ->
    Forall2 whole_calories (calories_in_range userId startDate endDate w) ns ->
    Zsum ns < 2 ^ 53 ->
    fst (FoodLogs.getTotalCaloriesInRange userId startDate endDate w')
    = fst (FoodLogs.getTotalCaloriesInRange userId startDate endDate w).
Proof.
  intros userId startDate endDate w w' ns Hhealthy Hhealthy' Hperm Hwhole Hbound.
  assert (Hcs : Permutation (calories_in_range userId startDate endDate w)
                  (calories_in_range userId startDate endDate w')).
  { unfold calories_in_range. apply Permutation_map, filter_perm, Hperm. }
  destruct (Permutation_Forall2 Hcs Hwhole) as (ns' & Hns & Hwhole').
  pose proof (Zsum_perm _ _ Hns) as Hsum.
  rewrite !(getTotalCaloriesInRange_healthy _ _ _ _ Hhealthy),
    !(getTotalCaloriesInRange_healthy _ _ _ _ Hhealthy').
  change 0%float with (Js.of_Z 0).
  rewrite (total_whole _ ns 0 Hwhole), (total_whole _ ns' 0 Hwhole') by lia.
  rewrite Hsum. reflexivity.
Qed.

Lemma getTotalCaloriesInRange_order_free_witness :
  fst (FoodLogs.getTotalCaloriesInRange "u1" 19000 19001 with_whole_calories_reordered)
  = fst (FoodLogs.getTotalCaloriesInRange "u1" 19000 19001 with_whole_calories).
Proof.
  apply (getTotalCaloriesInRange_order_free "u1" 19000 19001 with_whole_calories
           with_whole_calories_reordered [300; 150; 0; 520]).
  - reflexivity.
  - reflexivity.
  - exact (Permutation_rev (Store.food_logs with_whole_calories)).
  - repeat first [ apply Forall2_cons | apply Forall2_nil ].
    + apply whole_literal; [lia | reflexivity].
    + apply whole_literal; [lia | reflexivity].
    + apply whole_null.
    + apply whole_literal; [lia | reflexivity].
  - reflexivity.
Defined.

(** ** More on the nutrition summary *)

Lemma getDailyNutritionSummary_healthy userId date w :
  Store.next_fault w = Store.Healthy ->
  fst (FoodLogs.getDailyNutritionSummary userId date w)
  = Returns (fold_left FoodLogs.add_nutrients (nutrition_rows userId date w)
               FoodLogs.zero_summary).
Proof.
  intros Hhealthy. unfold FoodLogs.getDailyNutritionSummary, try_catch, bind.
  rewrite (call_healthy _ _ _ _ Hhealthy). reflexivity.
Qed.

Lemma join_without_entry catalog l :
  has_entry catalog l = false -> FoodLogs.join_makanan catalog l = [].
Proof.
  unfold has_entry, FoodLogs.join_makanan.
  destruct (FoodLog.food_id l) as [k | ]; [ | reflexivity].
  induction catalog as [ | entry catalog IH]; [reflexivity | ].
  cbn. destruct (fst entry =? k); [discriminate | exact IH].
Qed.

Lemma joined_rows_have_entry catalog f logs :
  flat_map (FoodLogs.join_makanan catalog) (filter f (filter (has_entry catalog) logs))
  = flat_map (FoodLogs.join_makanan catalog) (filter f logs).
Proof.
  induction logs as [ | l logs IH]; [reflexivity | ].
  cbn [filter]. destruct (has_entry catalog l) eqn:Hentry; cbn [filter].
  - destruct (f l); cbn [flat_map]; rewrite IH; reflexivity.
  - destruct (f l); [ | exact IH].
    cbn [flat_map]. rewrite (join_without_entry _ _ Hentry). exact IH.
Qed.

(** X13: the summary is an inner join. A log without a [food_id], or with a
    [food_id] the catalog does not have, adds nothing: the summary is the
    one of the store without such logs, and it is the zero summary when no
    log of the day has a catalog entry. *)
Theorem getDailyNutritionSummary_inner_join :
  forall (userId : string) (date : Z) (w : Store.world),
    Store.next_fault w = Store.Healthy ->
    fst (FoodLogs.getDailyNutritionSummary userId date w)
    = fst (FoodLogs.getDailyNutritionSummary userId date
             (Store.with_food_logs
                (filter (has_entry (Store.makanan w)) (Store.food_logs w)) w))
    /\ ((forall l, In l (Store.food_logs w) -> Store.on_date userId date l = true ->
                   has_entry (Store.makanan w) l = false) ->
        fst (FoodLogs.getDailyNutritionSummary userId date w)
        = Returns FoodLogs.zero_summary).
Proof.
  intros userId date w Hhealthy.
  rewrite !getDailyNutritionSummary_healthy by exact Hhealthy.
  unfold nutrition_rows. cbn [Store.food_logs Store.makanan Store.with_food_logs].
  split.
  - rewrite joined_rows_have_entry. reflexivity.
  - intros Hnone. rewrite <- joined_rows_have_entry.
    rewrite (filter_none (Store.on_date userId date)); [reflexivity | ].
    intros l Hin. apply filter_In in Hin. destruct Hin as [Hin Hentry].
    destruct (Store.on_date userId date l) eqn:Hon; [ | reflexivity].
    rewrite (Hnone l Hin Hon) in Hentry. discriminate Hentry.
Qed.

Lemma getDailyNutritionSummary_inner_join_witness :
  fst (FoodLogs.getDailyNutritionSummary "u1" 19000 with_catalog)
  = fst (FoodLogs.getDailyNutritionSummary "u1" 19000
           (Store.with_food_logs [log_of 1 (Some 1)] with_catalog)).
Proof.
  exact (proj1 (getDailyNutritionSummary_inner_join "u1" 19000 with_catalog eq_refl)).
Defined.

(** ** Errors of the store in the food-log services *)

(** What propagating an error of the store means: the service throws that
    error and the tables are as they were. *)
Lemma propagates {A B} table v (exec : Store.world -> Store.reply A * Store.world)
    (k : Store.reply A -> M Store.world B) w e :
  Store.next_fault w = Store.Fails e \/ Store.next_fault w = Store.Crashes e ->
  (forall w', k (Store.failed e) w' = (Throws e, w')) ->
  fst (bind (Store.call table v exec) k w) = Throws e
  /\ same_tables w (snd (bind (Store.call table v exec) k w)).
Proof.
  intros [Hfails | Hcrashes] Hk; unfold bind.
  - rewrite (call_fails _ _ _ _ _ Hfails), Hk. repeat split.
  - rewrite (call_crashes _ _ _ _ _ Hcrashes). repeat split.
Qed.

(** X14: apart from the nutrition summary, the food-log services propagate
    a failure of the store: when the call answers with an error [e], or
    the awaited call rejects with [e], the service throws [e] itself, and
    no table has changed. *)
Theorem food_log_services_propagate :
  forall (e : js_error) (w : Store.world),
    Store.next_fault w = Store.Fails e \/ Store.next_fault w = Store.Crashes e ->
    (forall userId date,
        fst (FoodLogs.getFoodLogsByDate userId date w) = Throws e
        /\ same_tables w (snd (FoodLogs.getFoodLogsByDate userId date w)))
    /\ (forall userId startDate endDate,
           fst (FoodLogs.getTotalCaloriesInRange userId startDate endDate w) = Throws e
           /\ same_tables w
                (snd (FoodLogs.getTotalCaloriesInRange userId startDate endDate w)))
    /\ (forall now userId date foodName calories foodId,
           fst (FoodLogs.addFoodLog now userId date foodName calories foodId w) = Throws e
           /\ same_tables w
                (snd (FoodLogs.addFoodLog now userId date foodName calories foodId w)))
    /\ (forall id,
           fst (FoodLogs.deleteFoodLog id w) = Throws e
           /\ same_tables w (snd (FoodLogs.deleteFoodLog id w))).
Proof.
  intros e w Hfault.
  repeat match goal with |- _ /\ _ => split end; intros;
    apply propagates; try exact Hfault; intros w'; reflexivity.
Qed.

Lemma food_log_services_propagate_witness :
  fst (FoodLogs.addFoodLog 60 "u1" 19000 "bakso" (Js.Num 320) (Some 99)
         (failing_with (RemoteError "23503") three_logs))
  = Throws (RemoteError "23503")
  /\ same_tables (failing_with (RemoteError "23503") three_logs)
       (snd (FoodLogs.addFoodLog 60 "u1" 19000 "bakso" (Js.Num 320) (Some 99)
               (failing_with (RemoteError "23503") three_logs))).
Proof.
  apply (proj1 (proj2 (proj2
           (food_log_services_propagate (RemoteError "23503")
              (failing_with (RemoteError "23503") three_logs)
              (or_introl eq_refl))))).
Defined.

(** ** More on synchronising a Firebase user *)

Lemma syncFirebaseUser_existing uid email username w u :
  uid <> "" ->
  users_with_uid uid w = [u] ->
  Store.next_fault w = Store.Healthy ->
  Users.syncFirebaseUser (Some uid) email username w
  = (Returns (User.id u),
     Store.record (Store.Query "users" Store.Select) (Store.consume_fault w)).
Proof.
  intros Huid Hrow Hhealthy. unfold Users.syncFirebaseUser.
  apply String.eqb_neq in Huid. rewrite Huid.
  unfold bind, Users.select_id_by_firebase_uid.
  rewrite (call_healthy _ _ _ _ Hhealthy).
  cbn [fst snd Store.users Store.record Store.consume_fault].
  unfold users_with_uid in Hrow. rewrite Hrow. reflexivity.
Qed.

Lemma syncFirebaseUser_new uid email username w :
  uid <> "" ->
  users_with_uid uid w = [] ->
  healthy 2 w ->
  Users.syncFirebaseUser (Some uid) email username w
  = (Returns (Store.fresh_user_id (Store.users w)),
     Store.with_users (Store.users w ++ [new_user uid email username w])
       (Store.record (Store.Query "users" Store.Insert)
          (Store.consume_fault
             (Store.record (Store.Query "users" Store.Select)
                (Store.consume_fault w))))).
Proof.
  intros Huid Hnone Hhealthy. unfold Users.syncFirebaseUser.
  apply String.eqb_neq in Huid. rewrite Huid.
  unfold bind, Users.select_id_by_firebase_uid.
  rewrite (call_healthy _ _ _ _ (healthy_next _ _ Hhealthy)).
  cbn [fst snd Store.users Store.record Store.consume_fault].
  unfold users_with_uid in Hnone. rewrite Hnone.
  cbn [map Store.maybeSingle Store.error Store.data].
  unfold Users.insert_user. rewrite call_healthy.
  - reflexivity.
  - apply (healthy_next 0). intros i Hi. exact (healthy_consume _ _ Hhealthy i Hi).
Qed.

(** X15: for a Firebase uid that one row of [users] has, [syncFirebaseUser]
    returns the id of that row after a single call of the store, the
    lookup: nothing is inserted and no table changes, whatever email and
    username are passed. *)
Theorem syncFirebaseUser_returns_existing :
  forall (uid : string) (email username : option string) (w : Store.world)
         (u : User.t),
    uid <> "" ->
    users_with_uid uid w = [u] ->
    Store.next_fault w = Store.Healthy ->
    let out := Users.syncFirebaseUser (Some uid) email username w in
    fst out = Returns (User.id u)
    /\ same_tables w (snd out)
    /\ Store.trace (snd out)
       = (Store.trace w ++ [Store.Query "users" Store.Select])%list.
Proof.
  intros uid email username w u Huid Hrow Hhealthy out. subst out.
  rewrite (syncFirebaseUser_existing _ _ _ _ _ Huid Hrow Hhealthy).
  repeat split.
Qed.

Lemma syncFirebaseUser_returns_existing_witness :
  let out := Users.syncFirebaseUser (Some "def") (Some "new@mail.com") (Some "other")
               two_users in
  fst out = Returns 2
  /\ same_tables two_users (snd out)
  /\ Store.trace (snd out)
     = (Store.trace two_users ++ [Store.Query "users" Store.Select])%list.
Proof.
  refine (syncFirebaseUser_returns_existing "def" (Some "new@mail.com") (Some "other")
            two_users _ _ eq_refl eq_refl).
  discriminate.
Defined.

Lemma users_with_uid_after_insert uid email username w :
  users_with_uid uid w = [] ->
  filter (fun u => (User.firebase_uid u =? uid)%string)
    (Store.users w ++ [new_user uid email username w])
  = [new_user uid email username w].
Proof.
  intros Hnone. unfold users_with_uid in Hnone.
  rewrite filter_app, Hnone. cbn. rewrite String.eqb_refl. reflexivity.
Qed.

(** X16: synchronising the same new Firebase uid twice, one call after the
    other: the first call inserts a row, the second call returns the same
    id and inserts nothing, whatever email and username it is given; the
    table then holds exactly one row with the uid. *)
Theorem syncFirebaseUser_twice :
  forall (uid : string) (email username email' username' : option string)
         (w : Store.world),
    uid <> "" ->
    users_with_uid uid w = [] ->
    healthy 3 w ->
    let first := Users.syncFirebaseUser (Some uid) email username w in
    let second := Users.syncFirebaseUser (Some uid) email' username' (snd first) in
    exists id row,
      fst first = Returns id
      /\ fst second = Returns id
      /\ Store.users (snd second) = Store.users (snd first)
      /\ users_with_uid uid (snd second) = [row]
      /\ User.id row = id.
Proof.
  intros uid email username email' username' w Huid Hnone Hhealthy first second.
  assert (Hfirst : first
                   = (Returns (Store.fresh_user_id (Store.users w)),
                      Store.with_users
                        (Store.users w ++ [new_user uid email username w])
                        (Store.record (Store.Query "users" Store.Insert)
                           (Store.consume_fault
                              (Store.record (Store.Query "users" Store.Select)
                                 (Store.consume_fault w)))))).
  { apply syncFirebaseUser_new; try assumption.
    intros i Hi. apply Hhealthy. lia. }
  subst second. rewrite Hfirst. cbn [fst snd].
  rewrite (syncFirebaseUser_existing uid email' username' _
             (new_user uid email username w) Huid).
  - exists (Store.fresh_user_id (Store.users w)), (new_user uid email username w).
    cbn [fst snd]. repeat split.
    exact (users_with_uid_after_insert uid email username w Hnone).
  - exact (users_with_uid_after_insert uid email username w Hnone).
  - apply (healthy_next 0). intros i Hi.
    apply (healthy_consume 1); [ | exact Hi].
    intros j Hj. apply (healthy_consume 2 w Hhealthy j Hj).
Qed.

Lemma syncFirebaseUser_twice_witness :
  let first := Users.syncFirebaseUser (Some "abc9") (Some "a@b.com") None two_users in
  let second := Users.syncFirebaseUser (Some "abc9") (Some "a@b.com") None (snd first) in
  exists id row,
    fst first = Returns id
    /\ fst second = Returns id
    /\ Store.users (snd second) = Store.users (snd first)
    /\ users_with_uid "abc9" (snd second) = [row]
    /\ User.id row = id.
Proof.
  apply (syncFirebaseUser_twice "abc9" (Some "a@b.com") None (Some "a@b.com") None
           two_users).
  - discriminate.
  - reflexivity.
  - intros i Hi. destruct i as [ | [ | [ | i]]]; reflexivity.
Defined.

Lemma local_part_without_at (email : string) :
  (forall c, In c (list_ascii_of_string email) -> c <> "@"%char) ->
  Users.local_part email = email.
Proof.
  induction email as [ | c email IH]; intros Hno; [reflexivity | ].
  cbn. destruct (Js.code c =? 64) eqn:Hc.
  - exfalso. apply (Hno c); [left; reflexivity | ].
    apply Z.eqb_eq in Hc. unfold Js.code in Hc.
    rewrite <- (ascii_nat_embedding c).
    replace (nat_of_ascii c) with 64%nat by lia. reflexivity.
  - f_equal. apply IH. intros c' Hin. apply Hno. right. exact Hin.
Qed.

(** X17: the username of the row that [syncFirebaseUser] inserts for a new
    Firebase uid. A username that is given and not empty is stored as it
    is, whatever the email; without a username and without an email the
    username is [null]; without a username and with an email that has no
    ['@'], the whole email is the username. The row carries the uid and
    the email as given and has no calorie target. *)
Theorem syncFirebaseUser_username_choice :
  forall (uid : string) (email username : option string) (w : Store.world),
    uid <> "" ->
    users_with_uid uid w = [] ->
    healthy 2 w ->
    exists row,
      Store.users (snd (Users.syncFirebaseUser (Some uid) email username w))
      = (Store.users w ++ [row])%list
      /\ fst (Users.syncFirebaseUser (Some uid) email username w)
         = Returns (User.id row)
      /\ User.firebase_uid row = uid
      /\ User.email row = email
      /\ User.daily_calorie_target row = None
      /\ (forall name, username = Some name -> name <> "" ->
                       User.username row = Some name)
      /\ (Users.absent username = true -> Users.absent email = true ->
          User.username row = None)
      /\ (forall e, Users.absent username = true -> email = Some e -> e <> "" ->
                    (forall c, In c (list_ascii_of_string e) -> c <> "@"%char) ->
                    User.username row = Some e).
Proof.
  intros uid email username w Huid Hnone Hhealthy.
  rewrite (syncFirebaseUser_new uid email username w Huid Hnone Hhealthy).
  exists (new_user uid email username w). cbn [fst snd Store.users Store.with_users].
  repeat match goal with |- _ /\ _ => split end; try reflexivity;
    cbn [new_user User.username]; unfold Users.effective_username.
  - intros name -> Hname. cbn [Users.absent].
    apply String.eqb_neq in Hname. rewrite Hname. reflexivity.
  - intros Huser Hemail. rewrite Huser.
    destruct email as [e | ]; [ | reflexivity].
    cbn [Users.absent] in Hemail. rewrite Hemail. reflexivity.
  - intros e Huser -> He Hno. rewrite Huser.
    apply String.eqb_neq in He. rewrite He.
    rewrite (local_part_without_at e Hno). reflexivity.
Qed.

Lemma syncFirebaseUser_username_choice_witness :
  exists row,
    Store.users (snd (Users.syncFirebaseUser (Some "abc9") (Some "x@y.com")
                        (Some "budi") two_users))
    = (Store.users two_users ++ [row])%list
    /\ User.username row = Some "budi".
Proof.
  destruct (syncFirebaseUser_username_choice "abc9" (Some "x@y.com") (Some "budi")
              two_users)
    as (row & Husers & _ & _ & _ & _ & Hgiven & _).
  - discriminate.
  - reflexivity.
  - intros i Hi. destruct i as [ | [ | i]]; reflexivity.
  - exists row. split; [exact Husers | ].
    apply (Hgiven "budi"); [reflexivity | discriminate].
Defined.

(** X18: [syncFirebaseUser] propagates the errors of the store. When the
    lookup answers with an error, the error is logged and thrown and no
    insert is attempted; when the lookup finds no row and the insert
    answers with an error, that error is logged and thrown. In both cases
    the [users] table is unchanged. *)
Theorem syncFirebaseUser_propagates :
  forall (uid : string) (email username : option string) (w : Store.world)
         (e : js_error),
    uid <> "" ->
    let out := Users.syncFirebaseUser (Some uid) email username w in
    (Store.next_fault w = Store.Fails e ->
     fst out = Throws e
     /\ same_tables w (snd out)
     /\ Store.trace (snd out)
        = (Store.trace w
           ++ [Store.Query "users" Store.Select;
               Store.ConsoleError "Gagal cek user di Supabase (backend):"])%list)
    /\ (users_with_uid uid w = [] ->
        (exists rest, Store.faults w = Store.Healthy :: Store.Fails e :: rest) ->
        fst out = Throws e
        /\ same_tables w (snd out)
        /\ Store.trace (snd out)
           = (Store.trace w
              ++ [Store.Query "users" Store.Select;
                  Store.Query "users" Store.Insert;
                  Store.ConsoleError "Gagal insert user ke Supabase (backend):"])%list).
Proof.
  intros uid email username w e Huid out. subst out.
  unfold Users.syncFirebaseUser.
  apply String.eqb_neq in Huid. rewrite Huid.
  unfold bind, Users.select_id_by_firebase_uid. split.
  - intros Hfails. rewrite (call_fails _ _ _ _ _ Hfails). cbn.
    rewrite <- app_assoc. repeat split.
  - intros Hnone [rest Hfaults].
    rewrite call_healthy by (unfold Store.next_fault; rewrite Hfaults; reflexivity).
    cbn [fst snd Store.users Store.record Store.consume_fault].
    unfold users_with_uid in Hnone. rewrite Hnone.
    cbn [map Store.maybeSingle Store.error Store.data].
    unfold Users.insert_user.
    rewrite (call_fails _ _ _ _ e)
      by (unfold Store.next_fault; cbn; rewrite Hfaults; reflexivity).
    cbn. rewrite <- !app_assoc. repeat split.
Qed.

Lemma syncFirebaseUser_propagates_witness :
  let out := Users.syncFirebaseUser (Some "abc9") (Some "x@y.com") None
               (failing_second (RemoteError "23505") two_users) in
  fst out = Throws (RemoteError "23505")
  /\ same_tables (failing_second (RemoteError "23505") two_users) (snd out)
  /\ Store.trace (snd out)
     = (Store.trace (failing_second (RemoteError "23505") two_users)
        ++ [Store.Query "users" Store.Select;
            Store.Query "users" Store.Insert;
            Store.ConsoleError "Gagal insert user ke Supabase (backend):"])%list.
Proof.
  refine (proj2 (syncFirebaseUser_propagates "abc9" (Some "x@y.com") None
                   (failing_second (RemoteError "23505") two_users)
                   (RemoteError "23505") _) eq_refl _).
  - discriminate.
  - exists []. reflexivity.
Defined.

(** ** More on the daily calorie target *)

Lemma json_number_whole n :
  0 <= n < 2 ^ 53 ->
  Store.json_number (Some (Js.of_Z n)) = Some (Js.of_Z n).
Proof.
  intros Hn. destruct (Z.eq_dec n 0) as [-> | Hnz]; [reflexivity | ].
  pose proof (of_Z_truthy n ltac:(lia)) as Htruthy.
  cbn [Js.truthy] in Htruthy. apply negb_true_iff, orb_false_iff in Htruthy.
  destruct Htruthy as [Hzero Hnan].
  unfold Store.json_number, is_finite. rewrite Hzero, Hnan. cbn [orb].
  unfold is_infinity. rewrite eqb_spec, abs_spec, Prim2SF_of_Z by lia.
  destruct n as [ | p | p]; try lia.
  rewrite whole_pos by (apply digits_53; lia). reflexivity.
Qed.

Lemma updateUserDailyCalorieTarget_healthy userId target w :
  Store.next_fault w = Store.Healthy ->
  Users.updateUserDailyCalorieTarget userId target w
  = (Returns (Users.normalize_target target),
     Store.with_users
       (map (Users.set_target userId (Users.normalize_target target)) (Store.users w))
       (Store.record (Store.Query "users" Store.Update) (Store.consume_fault w))).
Proof.
  intros Hhealthy. unfold Users.updateUserDailyCalorieTarget, bind.
  rewrite (call_healthy _ _ _ _ Hhealthy). reflexivity.
Qed.




Lemma set_target_only_target userId value u :
  only_target_of userId u (Users.set_target userId value u).
Proof.
  unfold only_target_of, Users.set_target.
  destruct (Z.eqb_spec (User.id u) userId) as [Heq | Hne]; cbn.
  - repeat split. intros Hid. contradiction.
  - repeat split.
Qed.

(** X20: on a store that answers, [updateUserDailyCalorieTarget] changes no
    row of another user and no column but the calorie target: ids, uids,
    emails and usernames stay, row by row. When no row has the id, the
    table is left as it was, and the call still returns the normalised
    target without an error. Food logs and catalog are not touched. *)
Theorem updateUserDailyCalorieTarget_scope :
  forall (userId : Z) (target : Js.value) (w : Store.world),
    Store.next_fault w = Store.Healthy ->
    let out := Users.updateUserDailyCalorieTarget userId target w in
    Forall2 (only_target_of userId) (Store.users w) (Store.users (snd out))
    /\ Store.food_logs (snd out) = Store.food_logs w
    /\ Store.makanan (snd out) = Store.makanan w
    /\ ((forall u, In u (Store.users w) -> User.id u <> userId) ->
        Store.users (snd out) = Store.users w
        /\ fst out = Returns (Users.normalize_target target)).
Proof.
  intros userId target w Hhealthy out. subst out.
  rewrite (updateUserDailyCalorieTarget_healthy _ _ _ Hhealthy).
  cbn [fst snd Store.users Store.food_logs Store.makanan Store.with_users
       Store.record Store.consume_fault].
  split; [ | split; [reflexivity | split; [reflexivity | ]]].
  - induction (Store.users w) as [ | u us IH]; cbn [map]; constructor.
    + apply set_target_only_target.
    + exact IH.
  - intros Hnone. split; [ | reflexivity].
    induction (Store.users w) as [ | u us IH]; [reflexivity | ].
    cbn [map]. f_equal.
    + destruct (set_target_only_target userId (Users.normalize_target target) u)
        as (_ & _ & _ & _ & Hsame).
      apply Hsame, Hnone. left. reflexivity.
    + apply IH. intros u' Hin. apply Hnone. right. exact Hin.
Qed.

Lemma updateUserDailyCalorieTarget_scope_witness :
  let out := Users.updateUserDailyCalorieTarget 7 (Js.Num 1800) two_users in
  Store.users (snd out) = Store.users two_users
  /\ fst out = Returns (Users.normalize_target (Js.Num 1800)).
Proof.
  apply (proj2 (proj2 (proj2
           (updateUserDailyCalorieTarget_scope 7 (Js.Num 1800) two_users eq_refl)))).
  intros u [Hu | [Hu | []]]; subst u; discriminate.
Defined.

(** X21: the calorie-target services propagate a failure of the store: when
    the call answers with an error [e], or the awaited call rejects with
    [e], they throw [e] itself, and no table has changed. *)
Theorem target_services_propagate :
  forall (e : js_error) (w : Store.world),
    Store.next_fault w = Store.Fails e \/ Store.next_fault w = Store.Crashes e ->
    (forall userId,
        fst (Users.getUserDailyCalorieTarget userId w) = Throws e
        /\ same_tables w (snd (Users.getUserDailyCalorieTarget userId w)))
    /\ (forall userId target,
           fst (Users.updateUserDailyCalorieTarget userId target w) = Throws e
           /\ same_tables w (snd (Users.updateUserDailyCalorieTarget userId target w))).
Proof.
  intros e w Hfault.
  split; intros; apply propagates; try exact Hfault; intros w'; reflexivity.
Qed.

Lemma target_services_propagate_witness :
  fst (Users.updateUserDailyCalorieTarget 1 (Js.Num 1800)
         (failing_with (RemoteError "PGRST301") two_users))
  = Throws (RemoteError "PGRST301")
  /\ same_tables (failing_with (RemoteError "PGRST301") two_users)
       (snd (Users.updateUserDailyCalorieTarget 1 (Js.Num 1800)
               (failing_with (RemoteError "PGRST301") two_users))).
Proof.
  apply (proj2 (target_services_propagate (RemoteError "PGRST301")
                  (failing_with (RemoteError "PGRST301") two_users)
                  (or_introl eq_refl))).
Defined.

(** ** Adding a log and the total *)

Lemma json_value_whole n :
  0 <= n < 2 ^ 53 ->
  Store.json_value (Js.Num (Js.of_Z n)) = Js.Num (Js.of_Z n).
Proof.
  intros Hn. unfold Store.json_value. rewrite (json_number_whole n Hn). reflexivity.
Qed.

Lemma Zsum_app (ns ms : list Z) : Zsum (ns ++ ms) = Zsum ns + Zsum ms.
Proof.
  unfold Zsum. induction ns as [ | n ns IH]; cbn; [reflexivity | ].
  unfold Zsum in IH. lia.
Qed.

(** X22: adding a log with a whole number of calories raises the total of
    every range that contains its day by exactly that number, as long as
    the calories in the range are missing or whole and the new sum stays
    below 2^53. *)
Theorem addFoodLog_raises_total :
  forall (now : Z) (userId : string) (date : Z) (foodName : string) (n : Z)
         (foodId : option Z) (startDate endDate : Z) (w : Store.world) (ns : list Z),
    healthy 2 w ->
    startDate <= date <= endDate ->
    0 <= n ->
    Forall2 whole_calories (calories_in_range userId startDate endDate w) ns ->
    Zsum ns + n < 2 ^ 53 ->
    let added :=
      FoodLogs.addFoodLog now userId date foodName (Js.Num (Js.of_Z n)) foodId w in
    fst (FoodLogs.getTotalCaloriesInRange userId startDate endDate w)
    = Returns (Js.of_Z (Zsum ns))
    /\ fst (FoodLogs.getTotalCaloriesInRange userId startDate endDate (snd added))
       = Returns (Js.of_Z (Zsum ns + n)).
Proof.
  intros now userId date foodName n foodId startDate endDate w ns
    Hhealthy Hdate Hn Hwhole Hbound added.
  pose proof (sum_nonneg _ _ Hwhole) as Hns.
  split.
  - rewrite (getTotalCaloriesInRange_healthy _ _ _ _ (healthy_next _ _ Hhealthy)).
    change 0%float with (Js.of_Z 0).
    rewrite (total_whole _ ns 0 Hwhole) by lia. reflexivity.
  - subst added.
    rewrite (addFoodLog_healthy _ _ _ _ _ _ _ (healthy_next _ _ Hhealthy)).
    cbn [snd].
    rewrite getTotalCaloriesInRange_healthy
      by (apply (healthy_next 0), healthy_after_call; exact Hhealthy).
    assert (Hafter : Forall2 whole_calories
                       (calories_in_range userId startDate endDate
                          (Store.with_food_logs
                             (Store.food_logs w
                              ++ [new_log now userId date foodName
                                    (Js.Num (Js.of_Z n)) foodId w])
                             (Store.record (Store.Query "food_logs" Store.Insert)
                                (Store.consume_fault w))))
                       (ns ++ [n])).
    { unfold calories_in_range in *.
      cbn [Store.food_logs Store.with_food_logs]. rewrite filter_app, map_app.
      apply Forall2_app; [exact Hwhole | ].
      cbn [filter]. unfold Store.in_range at 1.
      cbn [new_log FoodLog.user_id FoodLog.date].
      rewrite String.eqb_refl.
      replace (startDate <=? date) with true by (symmetry; apply Z.leb_le; lia).
      replace (date <=? endDate) with true by (symmetry; apply Z.leb_le; lia).
      cbn [andb map new_log FoodLog.calories].
      rewrite json_value_whole by lia.
      repeat constructor. exact Hn. }
    change 0%float with (Js.of_Z 0).
    rewrite (total_whole _ (ns ++ [n]) 0 Hafter).
    + rewrite Zsum_app. unfold Zsum at 2. cbn [fold_right].
      do 2 f_equal. lia.
    + lia.
    + rewrite Zsum_app. unfold Zsum at 2. cbn [fold_right]. lia.
Qed.

Lemma addFoodLog_raises_total_witness :
  let added :=
    FoodLogs.addFoodLog 60 "u1" 19001 "bakso" (Js.Num (Js.of_Z 320)) None
      with_whole_calories in
  fst (FoodLogs.getTotalCaloriesInRange "u1" 19000 19001 with_whole_calories)
  = Returns (Js.of_Z (Zsum [300; 150; 0; 520]))
  /\ fst (FoodLogs.getTotalCaloriesInRange "u1" 19000 19001 (snd added))
     = Returns (Js.of_Z (Zsum [300; 150; 0; 520] + 320)).
Proof.
  apply (addFoodLog_raises_total 60 "u1" 19001 "bakso" 320 None 19000 19001
           with_whole_calories [300; 150; 0; 520]).
  - intros i Hi. destruct i as [ | [ | i]]; reflexivity.
  - lia.
  - lia.
  - repeat first [ apply Forall2_cons | apply Forall2_nil ].
    + apply whole_literal; [lia | reflexivity].
    + apply whole_literal; [lia | reflexivity].
    + apply whole_null.
    + apply whole_literal; [lia | reflexivity].
  - reflexivity.
Defined.
